(** * Tracing decorators of mini_4_view

    A shallow embedding of [mini_4_view/logs.py] (the decorators
    [start_end_log], [message_log] and [level_log]) and of the handler
    [CustomGenericAPIView.get] of [account/views.py] with the routes of
    [account/urls.py].

    Python function objects have an identity and a mutable attribute
    dictionary; both decorators of [logs.py] that annotate a function write
    into that dictionary, and the tracer reads it back at every call.  The
    development therefore keeps a store of attribute dictionaries indexed by
    object identity, and every Python computation is a function from the
    store to an outcome (a value or a raised exception), the new store and
    the text written on standard output. *)

From Stdlib Require Import ZArith NArith Ascii String Lia.
From stdpp Require Import base option list strings gmap pretty.

Set Warnings "-register-all".

(** ** Strings *)

Module Str.

(** The line feed character; Rocq strings have no escape for it. *)
Definition nl : string := String (ascii_of_nat 10) EmptyString.

(** The double quote character. *)
Definition dquote : ascii := ascii_of_nat 34.

(** [k * s] for a natural number [k]: [s] repeated [k] times. *)
Fixpoint repeat (k : nat) (s : string) : string :=
  match k with
  | O => EmptyString
  | S k' => s +:+ repeat k' s
  end.

(** A string of [k] space characters. *)
Fixpoint spaces (k : nat) : string :=
  match k with
  | O => EmptyString
  | S k' => String " " (spaces k')
  end.

(** [sep.join(l)]. *)
Fixpoint join (sep : string) (l : list string) : string :=
  match l with
  | [] => EmptyString
  | [x] => x
  | x :: rest => x +:+ sep +:+ join sep rest
  end.

(** [c in s]. *)
Fixpoint mem (c : ascii) (s : string) : bool :=
  match s with
  | EmptyString => false
  | String a rest => if Ascii.eqb a c then true else mem c rest
  end.

(** Number of space characters a string starts with. *)
Fixpoint leading_spaces (s : string) : nat :=
  match s with
  | String " " rest => S (leading_spaces rest)
  | _ => O
  end.

End Str.

Abbreviation nl := Str.nl.

(** ** Python values *)

(** The values that flow through the traced calls.  [VObj s r] is an opaque
    framework object (a request, a response, a view instance, a class, a
    function) known only through the text [s] of [str(o)] and the text [r] of
    [repr(o)]; it stands for objects of classes that define no arithmetic, no
    [__index__], no [__bool__] and no [__len__], as these do.  The characters
    of a [VStr] stand for the code points below 256. *)
Inductive value : Type :=
| VNone
| VBool (b : bool)
| VInt (z : Z)
| VStr (s : string)
| VTuple (items : list value)
| VDict (items : list (value * value))
| VObj (s r : string).

Module Repr.

Definition hex_digit (n : N) : ascii :=
  if (n <? 10)%N then ascii_of_N (48 + n) else ascii_of_N (87 + n).

(** [\xhh] *)
Definition hex_escape (n : N) : string :=
  String "\" (String "x" (String (hex_digit (n / 16)) (String (hex_digit (n mod 16)) ""))).

(** One character of [repr(s)] for a string quoted with [quote]. *)
Definition repr_char (quote c : ascii) : string :=
  let n := N_of_ascii c in
  if Ascii.eqb c quote || Ascii.eqb c "\" then String "\" (String c "")
  else if (n =? 9)%N then "\t"
  else if (n =? 10)%N then "\n"
  else if (n =? 13)%N then "\r"
  else if (n <? 32)%N || (n =? 127)%N
          || ((128 <=? n)%N && (n <=? 160)%N) || (n =? 173)%N
       then hex_escape n
  else String c "".

Fixpoint repr_chars (quote : ascii) (s : string) : string :=
  match s with
  | EmptyString => EmptyString
  | String c rest => repr_char quote c +:+ repr_chars quote rest
  end.

(** [repr(s)] of a string: single quotes, unless the string holds a single
    quote and no double quote. *)
Definition repr_str (s : string) : string :=
  let quote := if Str.mem "'" s && negb (Str.mem Str.dquote s)
               then Str.dquote else "'"%char in
  String quote (repr_chars quote s +:+ String quote "").

(** [repr(v)] *)
Fixpoint py_repr (v : value) : string :=
  match v with
  | VNone => "None"
  | VBool true => "True"
  | VBool false => "False"
  | VInt z => pretty z
  | VStr s => repr_str s
  | VTuple items =>
      match items with
      | [x] => "(" +:+ py_repr x +:+ ",)"
      | _ => "(" +:+ Str.join ", " (map py_repr items) +:+ ")"
      end
  | VDict items =>
      "{" +:+ Str.join ", " (map (fun kv => py_repr (fst kv) +:+ ": " +:+ py_repr (snd kv)) items) +:+ "}"
  | VObj _ r => r
  end.

(** [str(v)], which is what an f-string field [{v}] inserts. *)
Definition py_str (v : value) : string :=
  match v with
  | VStr s => s
  | VObj s _ => s
  | _ => py_repr v
  end.

(** [bool(v)], the test of an [if v:]. *)
Definition py_truthy (v : value) : bool :=
  match v with
  | VNone => false
  | VBool b => b
  | VInt z => negb (z =? 0)%Z
  | VStr s => negb (String.eqb s "")
  | VTuple items => match items with [] => false | _ => true end
  | VDict items => match items with [] => false | _ => true end
  | VObj _ _ => true
  end.

(** The name of the type of a value, as error messages print it. *)
Definition type_name (v : value) : string :=
  match v with
  | VNone => "NoneType"
  | VBool _ => "bool"
  | VInt _ => "int"
  | VStr _ => "str"
  | VTuple _ => "tuple"
  | VDict _ => "dict"
  | VObj _ _ => "object"
  end.

End Repr.

Export Repr.

(** ** The store and the monad of Python computations *)

(** Identity of a function object. *)
Definition ref : Type := nat.

(** The store: the attribute dictionary of every live function object. *)
Abbreviation heap := (gmap ref (gmap string value)).

(** Keyword arguments, in the order they were passed. *)
Definition kwargs : Type := list (string * value).

(** A raised exception: the name of its class and its message. *)
Record exn : Type := Exn { exc_type : string; exc_msg : string }.

Definition TypeError (msg : string) : exn := Exn "TypeError" msg.

Inductive outcome (A : Type) : Type :=
| Return (a : A)
| Raise (e : exn).
Arguments Return {A} a.
Arguments Raise {A} e.

(** What running a computation gives: how it ended, the store it left, and
    the text it wrote on standard output. *)
Record res (A : Type) : Type :=
  Res { r_out : outcome A; r_heap : gmap ref (gmap string value); r_stdout : string }.
Arguments Res {A} r_out r_heap r_stdout.
Arguments r_out {A} r.
Arguments r_heap {A} r.
Arguments r_stdout {A} r.

Definition M (A : Type) : Type := gmap ref (gmap string value) -> res A.

Definition ret {A : Type} (a : A) : M A := fun h => Res (Return a) h "".

Definition raise {A : Type} (e : exn) : M A := fun h => Res (Raise e) h "".

(** Sequencing: a raised exception skips the continuation; the output of
    both parts is concatenated in order. *)
Definition bind {A B : Type} (m : M A) (k : A -> M B) : M B := fun h =>
  let r := m h in
  match r_out r with
  | Return a =>
      let r' := k a (r_heap r) in
      Res (r_out r') (r_heap r') (r_stdout r +:+ r_stdout r')
  | Raise e => Res (Raise e) (r_heap r) (r_stdout r)
  end.

#[global] Instance M_ret : MRet M := @ret.
#[global] Instance M_bind : MBind M := fun A B k m => bind m k.

(** Lifting the result of a pure, fallible operation. *)
Definition lift {A : Type} (o : outcome A) : M A :=
  match o with
  | Return a => ret a
  | Raise e => raise e
  end.

(** [print(s)]: writes [s] and a line feed on standard output. *)
Definition print (s : string) : M unit := fun h => Res (Return tt) h (s +:+ nl).

(** The attribute dictionary of an object. *)
Definition attrs_of (h : gmap ref (gmap string value)) (r : ref) : gmap string value :=
  default ∅ (h !! r).

(** The value [getattr(o, name, dflt)] has in a store. *)
Definition attr_or (h : gmap ref (gmap string value)) (r : ref) (name : string)
    (dflt : value) : value :=
  default dflt (attrs_of h r !! name).

(** The store after [o.name = v]. *)
Definition heap_setattr (h : gmap ref (gmap string value)) (r : ref) (name : string)
    (v : value) : gmap ref (gmap string value) :=
  <[r := <[name := v]> (attrs_of h r)]> h.

(** Evaluating a [def]: a new function object with an empty dictionary. *)
Definition new_function : M ref := fun h =>
  let r := fresh (dom h) in Res (Return r) (<[r := ∅]> h) "".

(** A function object: its identity, its [__name__] (fixed by the [def]) and
    what calling it with positional and keyword arguments does.  The code of
    a function is not part of the store, so a call can write attributes and
    print, and nothing else. *)
Record callable : Type :=
  Callable { c_ref : ref; c_name : string; c_call : list value -> kwargs -> M value }.

Definition getattr (func : callable) (name : string) (dflt : value) : M value :=
  fun h => Res (Return (attr_or h (c_ref func) name dflt)) h "".

Definition setattr (func : callable) (name : string) (v : value) : M unit :=
  fun h => Res (Return tt) (heap_setattr h (c_ref func) name v) "".

(** [def name(...): body] *)
Definition def (name : string) (body : list value -> kwargs -> M value) : M callable :=
  r ← new_function; mret (Callable r name body).

(** Keyword arguments as the dictionary [**kwargs] collects them. *)
Definition kwargs_dict (kw : kwargs) : value :=
  VDict (map (fun kv => (VStr (fst kv), snd kv)) kw).

Fixpoint kw_lookup (name : string) (kw : kwargs) : option value :=
  match kw with
  | [] => None
  | (k, v) :: rest => if String.eqb k name then Some v else kw_lookup name rest
  end.

Definition OverflowError (msg : string) : exn := Exn "OverflowError" msg.

(** The least and the greatest size or index of a 64-bit CPython. *)
Definition ssize_min : Z := (-9223372036854775808)%Z.
Definition ssize_max : Z := 9223372036854775807%Z.

(** [s] repeated [z] times, as CPython does it: the count has to fit an
    index, a count below one gives the empty string, and the length of the
    result has to fit a size.  What the model leaves out is the [MemoryError]
    of a machine that cannot hold a string within that limit: memory is
    taken to suffice. *)
Definition str_repeat (z : Z) (s : string) : outcome string :=
  if (z <? ssize_min)%Z || (ssize_max <? z)%Z
  then Raise (OverflowError "cannot fit 'int' into an index-sized integer")
  else if (z <? 1)%Z then Return ""
  else if (ssize_max / z <? Z.of_nat (String.length s))%Z
  then Raise (OverflowError "repeated string is too long")
  else Return (Str.repeat (Z.to_nat z) s).

(** A level [n] for which [n * '  '] is built: it fits an index and the
    string of [2n] spaces fits a size. *)
Definition level_fits (n : Z) : Prop :=
  (ssize_min <= n < 4611686018427387904)%Z.

(** [v * s] for a string [s] on the right: an integer (or a boolean, which is
    an integer) repeats the string; any other left operand is a
    [TypeError]. *)
Definition py_mul_str (v : value) (s : string) : outcome string :=
  match v with
  | VInt z => str_repeat z s
  | VBool b => str_repeat (if b then 1%Z else 0%Z) s
  | VStr _ | VTuple _ =>
      Raise (TypeError "can't multiply sequence by non-int of type 'str'")
  | _ => Raise (TypeError ("can't multiply sequence by non-int of type '" +:+ type_name v +:+ "'"))
  end.

(** ** Binding the arguments of a call to the parameters of a [def] *)

Module Call.

(** The parameter list of a [def]: positional-or-keyword parameters with
    their defaults, and whether [*args] and [**kwargs] follow. *)
Record signature : Type :=
  Sig { sig_qualname : string;
        sig_params : list (string * option value);
        sig_varargs : bool;
        sig_varkw : bool }.

(** The parameters with the argument bound to each so far. *)
Definition slots : Type := list (string * option value).

(** Positional arguments fill the parameters from the left; what is left
    over goes to [*args]. *)
Fixpoint fill_positional (params : list (string * option value)) (pos : list value)
    : slots * list value :=
  match params, pos with
  | [], _ => ([], pos)
  | _ :: _, [] => (map (fun pd => (fst pd, None)) params, [])
  | (p, _) :: params', v :: pos' =>
      let r := fill_positional params' pos' in ((p, Some v) :: fst r, snd r)
  end.

(** Binding keyword [k]: [None] when no parameter has that name,
    [Some None] when the parameter is bound already. *)
Fixpoint slot_assign (k : string) (v : value) (sl : slots) : option (option slots) :=
  match sl with
  | [] => None
  | (p, cur) :: rest =>
      if String.eqb p k then
        match cur with
        | Some _ => Some None
        | None => Some (Some ((p, Some v) :: rest))
        end
      else
        match slot_assign k v rest with
        | None => None
        | Some None => Some None
        | Some (Some rest') => Some (Some ((p, cur) :: rest'))
        end
  end.

Definition multiple_values (sg : signature) (k : string) : exn :=
  TypeError (sig_qualname sg +:+ "() got multiple values for argument '" +:+ k +:+ "'").

Definition unexpected_keyword (sg : signature) (k : string) : exn :=
  TypeError (sig_qualname sg +:+ "() got an unexpected keyword argument '" +:+ k +:+ "'").

(** Keyword arguments, in order: each binds the parameter of its name or
    is collected by [**kwargs]. *)
Fixpoint bind_keywords (sg : signature) (kw : kwargs) (sl : slots)
    : outcome (slots * kwargs) :=
  match kw with
  | [] => Return (sl, [])
  | (k, v) :: rest =>
      match slot_assign k v sl with
      | Some (Some sl') => bind_keywords sg rest sl'
      | Some None => Raise (multiple_values sg k)
      | None =>
          if sig_varkw sg then
            match bind_keywords sg rest sl with
            | Return (sl', extra) => Return (sl', (k, v) :: extra)
            | Raise e => Raise e
            end
          else Raise (unexpected_keyword sg k)
      end
  end.

Definition plural (n : nat) : string := if Nat.eqb n 1 then "" else "s".

Definition too_many_positional (sg : signature) (given : nat) : exn :=
  let n := length (sig_params sg) in
  let defcount := length (filter (fun pd => is_Some (snd pd)) (sig_params sg)) in
  let takes :=
    if Nat.eqb defcount 0 then pretty n +:+ " positional argument" +:+ plural n
    else "from " +:+ pretty (n - defcount)%nat +:+ " to " +:+ pretty n
         +:+ " positional arguments" in
  TypeError (sig_qualname sg +:+ "() takes " +:+ takes +:+ " but " +:+ pretty given
             +:+ (if Nat.eqb given 1 then " was" else " were") +:+ " given").

Fixpoint format_missing (names : list string) : string :=
  match names with
  | [] => ""
  | [a] => "'" +:+ a +:+ "'"
  | [a; b] => "'" +:+ a +:+ "' and '" +:+ b +:+ "'"
  | [a; b; c] => "'" +:+ a +:+ "', '" +:+ b +:+ "', and '" +:+ c +:+ "'"
  | a :: rest => "'" +:+ a +:+ "', " +:+ format_missing rest
  end.

Definition missing_positional (sg : signature) (names : list string) : exn :=
  TypeError (sig_qualname sg +:+ "() missing " +:+ pretty (length names)
             +:+ " required positional argument" +:+ plural (length names) +:+ ": "
             +:+ format_missing names).

(** Parameters still unbound take their default; those without one are
    missing. *)
Fixpoint finish (params : list (string * option value)) (sl : slots)
    : list string * list value :=
  match params, sl with
  | (p, d) :: params', (_, cur) :: sl' =>
      let r := finish params' sl' in
      match cur, d with
      | Some v, _ => (fst r, v :: snd r)
      | None, Some v => (fst r, v :: snd r)
      | None, None => (p :: fst r, snd r)
      end
  | _, _ => ([], [])
  end.

(** The values of the parameters, of [*args] and of [**kwargs] for a call
    with positional arguments [pos] and keyword arguments [kw]. *)
Definition bind_params (sg : signature) (pos : list value) (kw : kwargs)
    : outcome (list value * list value * kwargs) :=
  let filled := fill_positional (sig_params sg) pos in
  match bind_keywords sg kw (fst filled) with
  | Raise e => Raise e
  | Return (sl, extra_kw) =>
      if negb (sig_varargs sg) && negb (Nat.eqb (length (snd filled)) 0)
      then Raise (too_many_positional sg (length pos))
      else
        match finish (sig_params sg) sl with
        | ([], vals) => Return (vals, snd filled, extra_kw)
        | (names, _) => Raise (missing_positional sg names)
        end
  end.

(** The value of the [i]-th parameter. *)
Definition param (i : nat) (vals : list value) : value := nth i vals VNone.

End Call.

(** ** [mini_4_view/logs.py] *)

Module Logs.

(** [def inner(self, *args, **kwargs)] inside [start_end_log]. *)
Definition inner_sig : Call.signature :=
  Call.Sig "start_end_log.<locals>.inner" [("self", None)] true true.

(** The text of the f-string of the first [print]. *)
Definition start_line (log_level_spaces name : string) (args : list value)
    (kw : kwargs) : string :=
  nl +:+ log_level_spaces +:+ "+++[" +:+ name +:+ " <- " +:+ py_str (VTuple args)
     +:+ " - " +:+ py_str (kwargs_dict kw) +:+ "]".

(** The text of the f-string of the second [print]. *)
Definition end_line (log_level_spaces name : string) (result : value) : string :=
  log_level_spaces +:+ "---[" +:+ name +:+ " -> " +:+ py_str result +:+ "]" +:+ nl.

(** The closure [inner] that [start_end_log(func)] returns. *)
Definition start_end_log_inner (func : callable) (pos : list value) (kw : kwargs)
    : M value :=
  '(params, args, kwargs) ← lift (Call.bind_params inner_sig pos kw);
  let self := Call.param 0 params in
  log_message ← getattr func "log_message" (VStr "");
  log_level ← getattr func "log_level" (VInt 0);
  log_level_spaces ← lift (py_mul_str log_level "  ");
  print (start_line log_level_spaces (c_name func) args kwargs);;
  result ← c_call func (self :: args) kwargs;
  print (end_line log_level_spaces (c_name func) result);;
  mret result.

Definition start_end_log (func : callable) : M callable :=
  def "inner" (start_end_log_inner func).

(** The closure [inner] that [message_log(message)] returns. *)
Definition message_log_inner (message : value) (func : callable) : M callable :=
  setattr func "log_message" message;;
  mret func.

Definition message_log (message : value) : callable -> M callable :=
  message_log_inner message.

(** The closure [inner] that [level_log(level)] returns. *)
Definition level_log_inner (level : value) (func : callable) : M callable :=
  setattr func "log_level" level;;
  mret func.

Definition level_log (level : value) : callable -> M callable :=
  level_log_inner level.

End Logs.

(** ** [account/urls.py] *)

Module Urls.

Definition is_digit (c : ascii) : bool :=
  let n := N_of_ascii c in ((48 <=? n)%N && (n <=? 57)%N).

(** The longest run of digits a string starts with, and what follows. *)
Fixpoint span_digits (s : string) : string * string :=
  match s with
  | EmptyString => (EmptyString, EmptyString)
  | String c rest =>
      if is_digit c
      then let r := span_digits rest in (String c (fst r), snd r)
      else (EmptyString, s)
  end.

(** The number that a string of decimal digits denotes. *)
Fixpoint int_of_digits (acc : Z) (s : string) : Z :=
  match s with
  | EmptyString => acc
  | String c rest => int_of_digits (10 * acc + Z.of_N (N_of_ascii c - 48))%Z rest
  end.

(** [s] without the prefix [p], when it starts with it. *)
Fixpoint strip_prefix (p s : string) : option string :=
  match p, s with
  | EmptyString, _ => Some s
  | String a p', String b s' => if Ascii.eqb a b then strip_prefix p' s' else None
  | String _ _, EmptyString => None
  end.

(** The most digits that [int] converts ([sys.int_max_str_digits]). *)
Definition int_max_str_digits : nat := 4300.

(** [int(s)] for a string of decimal digits: a [ValueError], here [None],
    when there are more digits than the limit, zeros in front included. *)
Definition py_int (s : string) : option Z :=
  if (String.length s <=? int_max_str_digits)%nat
  then Some (int_of_digits 0 s)
  else None.

(** The route ['APIView/']: the whole path, no captured argument. *)
Definition match_list (path : string) : option kwargs :=
  if String.eqb path "APIView/" then Some [] else None.

(** The route ['APIView/<int:key>/']: the [int] converter matches one or
    more digits and converts them with [int]; when [int] refuses them the
    route does not match. *)
Definition match_detail (path : string) : option kwargs :=
  match strip_prefix "APIView/" path with
  | None => None
  | Some rest =>
      let r := span_digits rest in
      if negb (String.eqb (fst r) "") && String.eqb (snd r) "/"
      then match py_int (fst r) with
           | Some k => Some [("key", VInt k)]
           | None => None
           end
      else None
  end.

(** [urlpatterns]: the routes are tried in order, both lead to
    [CustomGenericAPIView.as_view()]; the result is the keyword arguments
    the view is called with. *)
Definition urlpatterns : list (string -> option kwargs) := [match_list; match_detail].

Fixpoint resolve_in (patterns : list (string -> option kwargs)) (path : string)
    : option kwargs :=
  match patterns with
  | [] => None
  | p :: rest =>
      match p path with
      | Some kw => Some kw
      | None => resolve_in rest path
      end
  end.

Definition resolve (path : string) : option kwargs := resolve_in urlpatterns path.

End Urls.

(** ** [account/views.py] *)

Module Views.

Import Logs.

Section View.

(** [rest_framework.mixins.ListModelMixin.list] and
    [rest_framework.mixins.RetrieveModelMixin.retrieve], the framework
    methods that the [super()] calls of the mixins reach. *)
Variable ListModelMixin_list : list value -> kwargs -> M value.
Variable RetrieveModelMixin_retrieve : list value -> kwargs -> M value.

Definition list_sig : Call.signature :=
  Call.Sig "CustomListModelMixin.list" [("self", None); ("request", None)] true true.

Definition retrieve_sig : Call.signature :=
  Call.Sig "CustomRetrieveModelMixin.retrieve" [("self", None); ("request", None)]
           true true.

Definition get_sig : Call.signature :=
  Call.Sig "CustomGenericAPIView.get"
           [("self", None); ("request", None); ("key", Some VNone)] false false.

(** [return super().list(request, *args, **kwargs)] *)
Definition list_body (pos : list value) (kw : kwargs) : M value :=
  '(params, args, kwargs) ← lift (Call.bind_params list_sig pos kw);
  ListModelMixin_list (Call.param 0 params :: Call.param 1 params :: args) kwargs.

(** [return super().retrieve(request, *args, **kwargs)] *)
Definition retrieve_body (pos : list value) (kw : kwargs) : M value :=
  '(params, args, kwargs) ← lift (Call.bind_params retrieve_sig pos kw);
  RetrieveModelMixin_retrieve (Call.param 0 params :: Call.param 1 params :: args) kwargs.

(** The body of [get(self, request, key=None)]; [self_retrieve] and
    [self_list] are what [self.retrieve] and [self.list] resolve to. *)
Definition get_body (self_retrieve self_list : callable) (pos : list value)
    (kw : kwargs) : M value :=
  '(params, _, _) ← lift (Call.bind_params get_sig pos kw);
  let self := Call.param 0 params in
  let request := Call.param 1 params in
  let key := Call.param 2 params in
  if py_truthy key
  then c_call self_retrieve [self; request] []
  else c_call self_list [self; request] [].

(** [CustomListModelMixin.list], decorated. *)
Definition CustomListModelMixin_list : M callable :=
  f ← def "list" list_body;
  f ← message_log (VStr "LMM") f;
  f ← level_log (VInt 2) f;
  start_end_log f.

(** [CustomRetrieveModelMixin.retrieve], decorated. *)
Definition CustomRetrieveModelMixin_retrieve : M callable :=
  f ← def "retrieve" retrieve_body;
  f ← message_log (VStr "LMM") f;
  f ← level_log (VInt 2) f;
  start_end_log f.

(** [CustomGenericAPIView.get], decorated. *)
Definition CustomGenericAPIView_get (self_retrieve self_list : callable)
    : M callable :=
  f ← def "get" (get_body self_retrieve self_list);
  f ← level_log (VInt 1) f;
  start_end_log f.

(** The methods of [CustomGenericAPIView] that a [GET] reaches. *)
Record view_class : Type :=
  ViewClass { cls_list : callable; cls_retrieve : callable; cls_get : callable }.

(** Executing the three class statements of the module. *)
Definition CustomGenericAPIView : M view_class :=
  l ← CustomListModelMixin_list;
  r ← CustomRetrieveModelMixin_retrieve;
  g ← CustomGenericAPIView_get r l;
  mret (ViewClass l r g).

(** What the resolver of these routes raises for a path that none of them
    matches. *)
Definition Resolver404 (path : string) : exn :=
  Exn "Resolver404"
      ("{'tried': [[<URLPattern 'APIView/'>], [<URLPattern 'APIView/<int:key>/'>]], 'path': "
       +:+ repr_str path +:+ "}").

(** The handler call that a [GET] of [path] leads to, and that call alone:
    [self.get(request, **kwargs)] with the keyword arguments of the matching
    route.  What the framework runs around this call (the traced [dispatch],
    [initialize_request], [initial] and [finalize_response], and its handling
    of exceptions) is not part of it. *)
Definition handle_get (cls : view_class) (self request : value) (path : string)
    : M value :=
  match Urls.resolve path with
  | Some kw => c_call (cls_get cls) [self; request] kw
  | None => raise (Resolver404 path)
  end.

(** Executing the class statements, then that handler call. *)
Definition serve_get (self request : value) (path : string) : M value :=
  cls ← CustomGenericAPIView;
  handle_get cls self request path.

End View.

End Views.

(** ** Sample objects *)

Module Sample.

Definition empty_heap : gmap ref (gmap string value) := ∅.

Definition view : value :=
  VObj "<account.views.CustomGenericAPIView object>"
       "<account.views.CustomGenericAPIView object>".

Definition request : value :=
  VObj "<rest_framework.request.Request object>"
       "<rest_framework.request.Request object>".

(** A framework [list] that answers with the text [users]. *)
Definition list_stub (pos : list value) (kw : kwargs) : M value :=
  mret (VStr "users").

(** A framework [retrieve] that answers with the text [user]. *)
Definition retrieve_stub (pos : list value) (kw : kwargs) : M value :=
  mret (VStr "user").

(** A function [f] that prints a line and returns its positional
    arguments. *)
Definition f_echo : callable :=
  Callable 0 "f" (fun pos kw => print "working";; mret (VTuple pos)).

(** A function [g] that always raises. *)
Definition boom : exn := Exn "ValueError" "boom".

Definition g_fail : callable :=
  Callable 0 "g" (fun pos kw => print "working";; raise boom).

(** A store in which the function object 0 is live and carries no
    attribute. *)
Definition heap0 : gmap ref (gmap string value) := {[ 0%nat := ∅ ]}.


(** The same store after [level_log(n)] was applied to the object 0. *)
Definition heap_level (n : Z) : gmap ref (gmap string value) :=
  heap_setattr heap0 0%nat "log_level" (VInt n).

(** The closures that [start_end_log] makes of [f] and [g] in these
    stores: the object 1. *)
Definition w_echo : callable :=
  Callable 1 "inner" (Logs.start_end_log_inner f_echo).

Definition w_fail : callable :=
  Callable 1 "inner" (Logs.start_end_log_inner g_fail).

(** A function that returns its own message tag,
    [def f(self): return getattr(f, 'log_message', '')]. *)
Definition f_tag : callable :=
  Callable 0 "f" (fun pos kw h => Res (Return (attr_or h 0%nat "log_message" (VStr ""))) h "").

End Sample.


(** The indentation of a trace: the number of spaces between its leading
    line feed and the text of the start line. *)
Definition trace_indent (out : string) : nat :=
  match out with
  | EmptyString => O
  | String _ rest => Str.leading_spaces rest
  end.

(** ** The trace of a call, in closed form *)

Module Trace.
Import Call Logs.

(** What a call of the closure of [start_end_log(func)] amounts to, written
    without the monad: the arguments are bound, the indentation is
    computed from the level read off [func], the start line is printed,
    [func] runs, and the end line is printed when it returned.
    [LogFacts.inner_traced] proves it equal to [start_end_log_inner]. *)
Definition traced (func : callable) (pos : list value) (kw : kwargs) (h : heap)
    : res value :=
  match bind_params inner_sig pos kw with
  | Raise e => Res (Raise e) h ""
  | Return (params, args, kwargs') =>
      match py_mul_str (attr_or h (c_ref func) "log_level" (VInt 0)) "  " with
      | Raise e => Res (Raise e) h ""
      | Return sp =>
          let r := c_call func (param 0 params :: args) kwargs' h in
          Res (r_out r) (r_heap r)
              ((start_line sp (c_name func) args kwargs' +:+ nl)
               +:+ r_stdout r
               +:+ match r_out r with
                   | Return result => end_line sp (c_name func) result +:+ nl
                   | Raise _ => ""
                   end)
      end
  end.

End Trace.

(** ** Decimal numerals *)

Module Digits.

(** Whether every character of [s] is a decimal digit. *)
Fixpoint all_digits (s : string) : bool :=
  match s with
  | EmptyString => true
  | String c rest => Urls.is_digit c && all_digits rest
  end.

End Digits.

(** ** The other methods of [CustomGenericAPIView] *)

Module Hooks.
Import Logs.

(** One overriding method of [account/views.py]: its name, its parameter
    list, and the level that its [level_log] decorator gives it ([None] for
    a method without [level_log]). *)
Record method : Type :=
  Method { m_name : string; m_sig : Call.signature; m_level : option Z }.

(** The body of such a method, [return super().name(p1, ..., *args,
    **kwargs)]: the receiver and the parameters are passed on positionally,
    followed by [*args] and [**kwargs] when the method has them.
    [super_m] is the method of the framework class that [super()] reaches. *)
Definition super_call (m : method) (super_m : list value -> kwargs -> M value)
    (pos : list value) (kw : kwargs) : M value :=
  '(params, args, kwargs) ← lift (Call.bind_params (m_sig m) pos kw);
  super_m (params ++ args) kwargs.

(** The method as the class holds it: [@start_end_log], above
    [@level_log(n)] when there is one, above the [def]. *)
Definition decorate (m : method) (super_m : list value -> kwargs -> M value)
    : M callable :=
  f ← def (m_name m) (super_call m super_m);
  f ← match m_level m with
      | Some n => level_log (VInt n) f
      | None => mret f
      end;
  start_end_log f.

(** [(self)] *)
Definition sig_self (name : string) : Call.signature :=
  Call.Sig ("CustomGenericAPIView." +:+ name) [("self", None)] false false.

(** [(self, request)] *)
Definition sig_request (name : string) : Call.signature :=
  Call.Sig ("CustomGenericAPIView." +:+ name) [("self", None); ("request", None)]
           false false.

(** [(self, request, *args, **kwargs)] *)
Definition sig_request_star (name : string) : Call.signature :=
  Call.Sig ("CustomGenericAPIView." +:+ name) [("self", None); ("request", None)]
           true true.

(** [as_view(cls, **initkwargs)]; being a [classmethod], it is called with
    the class as receiver. *)
Definition as_view : method :=
  Method "as_view"
         (Call.Sig "CustomGenericAPIView.as_view" [("cls", None)] false true) None.

Definition dispatch : method :=
  Method "dispatch" (sig_request_star "dispatch") None.

Definition initialize_request : method :=
  Method "initialize_request" (sig_request_star "initialize_request") (Some 1%Z).

Definition get_parser_context : method :=
  Method "get_parser_context"
         (Call.Sig "CustomGenericAPIView.get_parser_context"
                   [("self", None); ("http_request", None)] false false)
         (Some 2%Z).

Definition initial : method :=
  Method "initial" (sig_request_star "initial") (Some 1%Z).

Definition perform_authentication : method :=
  Method "perform_authentication" (sig_request "perform_authentication") (Some 2%Z).

Definition check_permissions : method :=
  Method "check_permissions" (sig_request "check_permissions") (Some 2%Z).

Definition get_permissions : method :=
  Method "get_permissions" (sig_self "get_permissions") (Some 3%Z).

Definition check_throttles : method :=
  Method "check_throttles" (sig_request "check_throttles") (Some 2%Z).

Definition get_throttles : method :=
  Method "get_throttles" (sig_self "get_throttles") (Some 3%Z).

Definition finalize_response : method :=
  Method "finalize_response"
         (Call.Sig "CustomGenericAPIView.finalize_response"
                   [("self", None); ("request", None); ("response", None)] true true)
         (Some 1%Z).

Definition get_queryset : method :=
  Method "get_queryset" (sig_self "get_queryset") (Some 1%Z).

Definition get_serializer_class : method :=
  Method "get_serializer_class" (sig_self "get_serializer_class") (Some 1%Z).

Definition get_object : method :=
  Method "get_object" (sig_self "get_object") (Some 1%Z).

(** The overriding methods of [CustomGenericAPIView] other than [get], in
    the order of the class body. *)
Definition methods : list method :=
  [as_view; dispatch; initialize_request; get_parser_context; initial;
   perform_authentication; check_permissions; get_permissions; check_throttles;
   get_throttles; finalize_response; get_queryset; get_serializer_class; get_object].

(** The indentation of the trace of a method. *)
Definition indent_of (m : method) : string :=
  Str.spaces (Z.to_nat (2 * default 0%Z (m_level m))).

(** Evaluating [urlpatterns]: each of the two [path(...)] entries calls
    [CustomGenericAPIView.as_view()], with the class as receiver and no
    other argument; the views so made are the result. *)
Definition load_urlpatterns (as_view_m : callable) (cls : value) : M (list value) :=
  v1 ← c_call as_view_m [cls] [];
  v2 ← c_call as_view_m [cls] [];
  mret [v1; v2].

End Hooks.

(** ** Live objects *)

Module Store.

(** The object [r] exists in the store [h]. *)
Definition live (h : gmap ref (gmap string value)) (r : ref) : Prop := is_Some (h !! r).

(** Every object of [h] is in [h'] with the same attributes. *)
Definition extends (h h' : gmap ref (gmap string value)) : Prop :=
  forall r : ref, live h r -> h' !! r = h !! r.

(** What a decorated [def] leaves: the function [fn] and the closure [w]
    that traces it, in a store that extends the one before and in which [fn]
    is live and has the level [level]. *)
Definition decorated (h h' : gmap ref (gmap string value)) (fn w : callable)
    (level : value) : Prop :=
  c_call w = Logs.start_end_log_inner fn
  /\ live h' (c_ref fn)
  /\ attr_or h' (c_ref fn) "log_level" (VInt 0) = level
  /\ extends h h'.

End Store.

(** ** More sample objects *)

Module Sample2.

(** A framework [as_view] that answers with a view function. *)
Definition view_function : value :=
  VObj "<function View.as_view.<locals>.view>" "<function View.as_view.<locals>.view>".

Definition as_view_stub (pos : list value) (kw : kwargs) : M value :=
  mret view_function.

(** The class object. *)
Definition view_class_object : value :=
  VObj "<class 'account.views.CustomGenericAPIView'>"
       "<class 'account.views.CustomGenericAPIView'>".

(** A framework method that answers with the positional arguments it got. *)
Definition super_stub (pos : list value) (kw : kwargs) : M value :=
  mret (VTuple pos).

End Sample2.

(** * Properties *)

(** ** Strings *)

Module StrFacts.
Import Str.

Lemma app_nil_l (s : string) : "" +:+ s = s.
Proof. reflexivity. Qed.

Lemma app_cons (a : ascii) (s t : string) : String a s +:+ t = String a (s +:+ t).
Proof. reflexivity. Qed.

Lemma app_nil_r (s : string) : s +:+ "" = s.
Proof. induction s as [|a s IH]; [reflexivity|]. now rewrite app_cons, IH. Qed.

Lemma app_assoc (s t u : string) : s +:+ (t +:+ u) = (s +:+ t) +:+ u.
Proof. induction s as [|a s IH]; [reflexivity|]. now rewrite !app_cons, IH. Qed.

Lemma length_app (s t : string) :
  String.length (s +:+ t) = (String.length s + String.length t)%nat.
Proof.
  induction s as [|a s IH]; [reflexivity|].
  rewrite app_cons. cbn [String.length]. now rewrite IH.
Qed.


Lemma repeat_two_spaces (k : nat) : repeat k "  " = spaces (2 * k).
Proof.
  induction k as [|k IH]; [reflexivity|].
  replace (2 * S k)%nat with (S (S (2 * k))) by lia.
  cbn [repeat spaces]. rewrite IH. reflexivity.
Qed.

Lemma leading_spaces_app (k : nat) (a : ascii) (s : string) :
  a <> " "%char -> leading_spaces (spaces k +:+ String a s) = k.
Proof.
  intros Ha. induction k as [|k IH].
  - cbn [spaces]. rewrite app_nil_l.
    destruct a as [[] [] [] [] [] [] [] []]; try reflexivity. now elim Ha.
  - cbn [spaces]. rewrite app_cons. cbn [leading_spaces]. now rewrite IH.
Qed.

End StrFacts.

(** ** The store *)

Module HeapFacts.

Lemma attr_or_setattr_same (h : heap) (r : ref) (name : string) (v dflt : value) :
  attr_or (heap_setattr h r name v) r name dflt = v.
Proof.
  unfold attr_or, attrs_of, heap_setattr.
  rewrite lookup_insert_eq. cbn. now rewrite lookup_insert_eq.
Qed.

Lemma attrs_of_setattr_other_name (h : heap) (r : ref) (name name' : string) (v : value) :
  name <> name' ->
  attrs_of (heap_setattr h r name v) r !! name' = attrs_of h r !! name'.
Proof.
  intros Hne. unfold attrs_of at 1. unfold heap_setattr.
  rewrite lookup_insert_eq. cbn. now rewrite lookup_insert_ne.
Qed.

Lemma attrs_of_setattr_other_ref (h : heap) (r r' : ref) (name : string) (v : value) :
  r <> r' -> attrs_of (heap_setattr h r name v) r' = attrs_of h r'.
Proof.
  intros Hne. unfold attrs_of, heap_setattr. now rewrite lookup_insert_ne.
Qed.

Lemma attr_or_setattr_other_name (h : heap) (r : ref) (name name' : string)
    (v dflt : value) :
  name <> name' ->
  attr_or (heap_setattr h r name v) r name' dflt = attr_or h r name' dflt.
Proof.
  intros Hne. unfold attr_or. now rewrite attrs_of_setattr_other_name.
Qed.

Lemma attr_or_setattr_other_ref (h : heap) (r r' : ref) (name name' : string)
    (v dflt : value) :
  r <> r' -> attr_or (heap_setattr h r name v) r' name' dflt = attr_or h r' name' dflt.
Proof.
  intros Hne. unfold attr_or. now rewrite attrs_of_setattr_other_ref.
Qed.

(** Two assignments to different attributes of one object commute. *)
Lemma heap_setattr_comm (h : heap) (r : ref) (n1 n2 : string) (v1 v2 : value) :
  n1 <> n2 ->
  heap_setattr (heap_setattr h r n1 v1) r n2 v2
  = heap_setattr (heap_setattr h r n2 v2) r n1 v1.
Proof.
  intros Hne. unfold heap_setattr, attrs_of.
  rewrite !lookup_insert_eq. cbn. rewrite !insert_insert_eq.
  f_equal. now apply insert_insert_ne.
Qed.

(** An assignment commutes with the creation of another object. *)
Lemma heap_setattr_alloc (h : heap) (r r' : ref) (name : string) (v : value) :
  r <> r' ->
  <[r' := ∅]> (heap_setattr h r name v) = heap_setattr (<[r' := ∅]> h) r name v.
Proof.
  intros Hne. unfold heap_setattr, attrs_of.
  rewrite lookup_insert_ne by congruence.
  now apply insert_insert_ne.
Qed.

Lemma dom_setattr (h : heap) (r : ref) (name : string) (v : value) :
  dom (heap_setattr h r name v) = {[ r ]} ∪ dom h.
Proof. unfold heap_setattr. apply dom_insert_L. Qed.

(** The object that a [def] creates is none of the live ones. *)
Lemma fresh_not_live (h : heap) (r : ref) : is_Some (h !! r) -> fresh (dom h) <> r.
Proof.
  intros Hr Heq. apply (is_fresh (dom h)). rewrite Heq. now apply elem_of_dom.
Qed.

Lemma attrs_of_alloc_other (h : heap) (r r' : ref) :
  r' <> r -> attrs_of (<[r' := ∅]> h) r = attrs_of h r.
Proof. intros Hne. unfold attrs_of. now rewrite lookup_insert_ne. Qed.

End HeapFacts.

(** ** Binding the parameters of [inner] *)

Module CallFacts.
Import Call Logs.

Lemma kw_lookup_cons_none (name k : string) (v : value) (kw : kwargs) :
  kw_lookup name ((k, v) :: kw) = None ->
  String.eqb k name = false /\ kw_lookup name kw = None.
Proof. cbn. destruct (String.eqb k name); [discriminate | auto]. Qed.

(** Once [self] is bound, every keyword but [self] goes to [**kwargs]. *)
Lemma bind_keywords_self_bound (self : value) (kw : kwargs) :
  kw_lookup "self" kw = None ->
  bind_keywords inner_sig kw [("self", Some self)]
  = Return ([("self", Some self)], kw).
Proof.
  induction kw as [|[k v] kw IH]; [reflexivity|].
  intros H. apply kw_lookup_cons_none in H as [Hk Hkw].
  cbn [bind_keywords slot_assign]. rewrite (String.eqb_sym "self" k), Hk.
  cbn [inner_sig sig_varkw]. now rewrite IH.
Qed.

Lemma bind_keywords_self_missing (kw : kwargs) :
  kw_lookup "self" kw = None ->
  bind_keywords inner_sig kw [("self", None)] = Return ([("self", None)], kw).
Proof.
  induction kw as [|[k v] kw IH]; [reflexivity|].
  intros H. apply kw_lookup_cons_none in H as [Hk Hkw].
  cbn [bind_keywords slot_assign]. rewrite (String.eqb_sym "self" k), Hk.
  cbn [inner_sig sig_varkw]. now rewrite IH.
Qed.

Lemma bind_keywords_self_twice (self : value) (kw : kwargs) :
  is_Some (kw_lookup "self" kw) ->
  bind_keywords inner_sig kw [("self", Some self)]
  = Raise (multiple_values inner_sig "self").
Proof.
  induction kw as [|[k v] kw IH]; intros [x Hx]; [discriminate|].
  cbn [kw_lookup] in Hx. cbn [bind_keywords slot_assign].
  rewrite (String.eqb_sym "self" k).
  destruct (String.eqb k "self") eqn:Hk.
  - apply String.eqb_eq in Hk as ->. reflexivity.
  - cbn [inner_sig sig_varkw]. rewrite IH by eauto. reflexivity.
Qed.

(** A call with a positional receiver and no keyword [self]. *)
Lemma bind_inner_positional (self : value) (args : list value) (kw : kwargs) :
  kw_lookup "self" kw = None ->
  bind_params inner_sig (self :: args) kw = Return ([self], args, kw).
Proof.
  intros H. unfold bind_params. cbn [inner_sig sig_params fill_positional fst snd].
  rewrite bind_keywords_self_bound by assumption. reflexivity.
Qed.

(** A call with a positional receiver and a keyword [self] as well. *)
Lemma bind_inner_multiple (self : value) (args : list value) (kw : kwargs) :
  is_Some (kw_lookup "self" kw) ->
  bind_params inner_sig (self :: args) kw = Raise (multiple_values inner_sig "self").
Proof.
  intros H. unfold bind_params. cbn [inner_sig sig_params fill_positional fst snd].
  now rewrite bind_keywords_self_twice.
Qed.

(** A call with no positional argument and no keyword [self]. *)
Lemma bind_inner_missing (kw : kwargs) :
  kw_lookup "self" kw = None ->
  bind_params inner_sig [] kw = Raise (missing_positional inner_sig ["self"]).
Proof.
  intros H. unfold bind_params. cbn [inner_sig sig_params fill_positional fst snd map].
  rewrite bind_keywords_self_missing by assumption. reflexivity.
Qed.

(** A call with no positional argument whose keywords hold [self] once. *)
Lemma bind_inner_keyword (self : value) (kw1 kw2 : kwargs) :
  kw_lookup "self" kw1 = None -> kw_lookup "self" kw2 = None ->
  bind_params inner_sig [] (kw1 ++ ("self", self) :: kw2)
  = Return ([self], [], kw1 ++ kw2).
Proof.
  intros H1 H2. unfold bind_params.
  cbn [inner_sig sig_params fill_positional fst snd map].
  assert (bind_keywords inner_sig (kw1 ++ ("self", self) :: kw2) [("self", None)]
          = Return ([("self", Some self)], kw1 ++ kw2)) as ->.
  { induction kw1 as [|[k v] kw1 IH].
    - cbn [app bind_keywords slot_assign]. rewrite String.eqb_refl.
      now rewrite bind_keywords_self_bound.
    - apply kw_lookup_cons_none in H1 as [Hk Hkw].
      cbn [app bind_keywords slot_assign]. rewrite (String.eqb_sym "self" k), Hk.
      cbn [inner_sig sig_varkw]. now rewrite IH. }
  reflexivity.
Qed.

End CallFacts.

(** ** The traced call *)

Module LogFacts.
Import Call Logs Trace StrFacts.

Lemma bind_lift {A B : Type} (o : outcome A) (k : A -> M B) (h : heap) :
  (lift o ≫= k) h
  = match o with
    | Return a => k a h
    | Raise e => Res (Raise e) h ""
    end.
Proof.
  destruct o as [a|e]; [|reflexivity].
  unfold mbind, M_bind, bind, lift, ret. cbn [r_out r_heap r_stdout].
  rewrite app_nil_l. now destruct (k a h).
Qed.

Lemma bind_getattr {B : Type} (func : callable) (name : string) (dflt : value)
    (k : value -> M B) (h : heap) :
  (getattr func name dflt ≫= k) h = k (attr_or h (c_ref func) name dflt) h.
Proof.
  unfold mbind, M_bind, bind, getattr. cbn [r_out r_heap r_stdout].
  rewrite app_nil_l. now destruct (k _ h).
Qed.

Lemma bind_print {B : Type} (s : string) (k : unit -> M B) (h : heap) :
  (print s ≫= k) h
  = Res (r_out (k tt h)) (r_heap (k tt h)) ((s +:+ nl) +:+ r_stdout (k tt h)).
Proof. reflexivity. Qed.

Lemma bind_run {A B : Type} (m : M A) (k : A -> M B) (h : heap) :
  (m ≫= k) h
  = match r_out (m h) with
    | Return a =>
        Res (r_out (k a (r_heap (m h)))) (r_heap (k a (r_heap (m h))))
            (r_stdout (m h) +:+ r_stdout (k a (r_heap (m h))))
    | Raise e => Res (Raise e) (r_heap (m h)) (r_stdout (m h))
    end.
Proof. reflexivity. Qed.

Lemma inner_traced (func : callable) (pos : list value) (kw : kwargs) (h : heap) :
  start_end_log_inner func pos kw h = traced func pos kw h.
Proof.
  unfold start_end_log_inner, traced. rewrite bind_lift.
  destruct (bind_params inner_sig pos kw) as [[[params args] kwargs']|e];
    [|reflexivity].
  rewrite !bind_getattr, bind_lift.
  destruct (py_mul_str _ _) as [sp|e]; [|reflexivity].
  rewrite bind_print. cbn [r_out r_heap r_stdout]. rewrite bind_run.
  destruct (c_call func _ _ h) as [[result|e] h' out]; cbn [r_out r_heap r_stdout].
  - rewrite bind_print. cbn [mret M_ret ret r_out r_heap r_stdout].
    rewrite !app_nil_r. reflexivity.
  - rewrite !app_nil_r. reflexivity.
Qed.

(** [start_end_log(func)] creates one function object, named [inner],
    whose call is the closure over [func]; it prints nothing. *)
Lemma start_end_log_run (func : callable) (h : heap) :
  start_end_log func h
  = Res (Return (Callable (fresh (dom h)) "inner" (start_end_log_inner func)))
        (<[fresh (dom h) := ∅]> h) "".
Proof. reflexivity. Qed.

Lemma start_end_log_call (func w : callable) (h0 : heap) :
  r_out (start_end_log func h0) = Return w ->
  c_call w = start_end_log_inner func /\ c_name w = "inner"
  /\ c_ref w = fresh (dom h0).
Proof. rewrite start_end_log_run. cbn. intros [= <-]. auto. Qed.

Lemma level_log_run (level : value) (func : callable) (h : heap) :
  level_log level func h
  = Res (Return func) (heap_setattr h (c_ref func) "log_level" level) "".
Proof. reflexivity. Qed.

Lemma message_log_run (message : value) (func : callable) (h : heap) :
  message_log message func h
  = Res (Return func) (heap_setattr h (c_ref func) "log_message" message) "".
Proof. reflexivity. Qed.

(** Running a computation that returns, then a continuation. *)
Lemma bind_return {A B : Type} (m : M A) (k : A -> M B) (h h' : heap) (a : A) :
  m h = Res (Return a) h' "" -> (m ≫= k) h = k a h'.
Proof.
  intros Hm. unfold mbind, M_bind, bind. rewrite Hm. cbn [r_out r_heap r_stdout].
  rewrite app_nil_l. now destruct (k a h').
Qed.

Lemma bind_lift_return {A B : Type} (a : A) (k : A -> M B) (h : heap) :
  (lift (Return a) ≫= k) h = k a h.
Proof. now apply bind_return. Qed.

Lemma str_repeat_fits (n : Z) :
  level_fits n -> str_repeat n "  " = Return (Str.spaces (2 * Z.to_nat n)).
Proof.
  unfold level_fits, str_repeat, ssize_min, ssize_max. intros Hn.
  destruct (Z.ltb_spec n (-9223372036854775808)) as [|_]; [lia|].
  destruct (Z.ltb_spec 9223372036854775807 n) as [|_]; [lia|]. cbn [orb].
  destruct (Z.ltb_spec n 1) as [Hlow|Hlow].
  - now replace (Z.to_nat n) with O by lia.
  - change (Z.of_nat (String.length "  ")) with 2%Z.
    destruct (Z.ltb_spec (9223372036854775807 / n) 2) as [Hdiv|_].
    + assert (2 <= 9223372036854775807 / n)%Z by (apply Z.div_le_lower_bound; lia).
      lia.
    + now rewrite repeat_two_spaces.
Qed.

Lemma str_repeat_overflow (n : Z) :
  (4611686018427387904 <= n)%Z ->
  exists msg : string, str_repeat n "  " = Raise (OverflowError msg).
Proof.
  unfold str_repeat, ssize_min, ssize_max. intros Hn.
  destruct (Z.ltb_spec n (-9223372036854775808)) as [|_]; [lia|].
  destruct (Z.ltb_spec 9223372036854775807 n) as [|Hmax]; cbn [orb]; [eauto|].
  destruct (Z.ltb_spec n 1) as [|_]; [lia|].
  change (Z.of_nat (String.length "  ")) with 2%Z.
  destruct (Z.ltb_spec (9223372036854775807 / n) 2) as [_|Hdiv]; [eauto|].
  assert (9223372036854775807 / n < 2)%Z by (apply Z.div_lt_upper_bound; lia).
  lia.
Qed.

Lemma indent_of_level (n : Z) :
  level_fits n -> py_mul_str (VInt n) "  " = Return (Str.spaces (2 * Z.to_nat n)).
Proof. apply str_repeat_fits. Qed.

Lemma indent_of_level_0 : py_mul_str (VInt 0) "  " = Return "".
Proof. reflexivity. Qed.

Lemma level_fits_small (n : Z) : (0 <= n <= 3)%Z -> level_fits n.
Proof. unfold level_fits, ssize_min. lia. Qed.

Lemma trace_indent_start (k : nat) (name rest : string) (args : list value)
    (kw : kwargs) :
  trace_indent ((start_line (Str.spaces k) name args kw +:+ nl) +:+ rest) = k.
Proof.
  unfold start_line, nl, Str.nl. rewrite <- !app_assoc.
  rewrite app_cons, app_nil_l. cbn [trace_indent].
  change ("+++[" +:+ ?x) with (String "+" ("++[" +:+ x)).
  now apply leading_spaces_app.
Qed.

End LogFacts.

(** * The claims about [logs.py] *)

Section Tracer.
Import Call Logs Trace StrFacts HeapFacts CallFacts LogFacts.

(** The function being decorated, the closure that [start_end_log] made of
    it in the store [h0], and one call of that closure. *)
Variables (f w : callable) (h0 : heap).
Hypothesis wrapped : r_out (start_end_log f h0) = Return w.

Variables (pos : list value) (kw : kwargs).
Variables (self : value) (args : list value) (kwargs' : kwargs).
Hypothesis bound : bind_params inner_sig pos kw = Return ([self], args, kwargs').

(** The call in closed form, once the arguments are bound and the
    indentation is known. *)
Lemma wrapped_call (h : heap) (sp : string) :
  py_mul_str (attr_or h (c_ref f) "log_level" (VInt 0)) "  " = Return sp ->
  c_call w pos kw h
  = let r := c_call f (self :: args) kwargs' h in
    Res (r_out r) (r_heap r)
        ((start_line sp (c_name f) args kwargs' +:+ nl)
         +:+ r_stdout r
         +:+ match r_out r with
             | Return result => end_line sp (c_name f) result +:+ nl
             | Raise _ => ""
             end).
Proof.
  intros Hsp. destruct (start_end_log_call _ _ _ wrapped) as (-> & _ & _).
  rewrite inner_traced. unfold traced. now rewrite bound, Hsp.
Qed.



(** C5: when [f] carries neither [log_level] nor [log_message], reading
    them gives the defaults 0 and the empty string, the lines are not
    indented, and the call ends the way [f] ends: it raises only what [f]
    raises. *)
Theorem start_end_log_no_metadata (h : heap) :
  attrs_of h (c_ref f) !! "log_level" = None ->
  attrs_of h (c_ref f) !! "log_message" = None ->
  r_out (getattr f "log_message" (VStr "") h) = Return (VStr "")
  /\ r_out (getattr f "log_level" (VInt 0) h) = Return (VInt 0)
  /\ c_call w pos kw h
     = let r := c_call f (self :: args) kwargs' h in
       Res (r_out r) (r_heap r)
           ((start_line "" (c_name f) args kwargs' +:+ nl)
            +:+ r_stdout r
            +:+ match r_out r with
                | Return result => end_line "" (c_name f) result +:+ nl
                | Raise _ => ""
                end).
Proof.
  intros Hlevel Hmessage. unfold getattr, attr_or. cbn [r_out].
  rewrite Hlevel, Hmessage. split_and!; [reflexivity | reflexivity |].
  apply wrapped_call. unfold attr_or. now rewrite Hlevel.
Qed.

End Tracer.

Section Delegation.
Import Call Logs Trace StrFacts HeapFacts CallFacts LogFacts.

Variables (f w : callable) (h0 : heap).
Hypothesis wrapped : r_out (start_end_log f h0) = Return w.


(** C10, amended: the receiver is bound to [self] and is not part of the
    tuple that the start line shows, and it is the first argument [f] is
    called with.  With no positional argument and no keyword [self] the
    call raises a [TypeError] before anything is written and before [f]
    runs; with no positional argument and the receiver passed as the
    keyword [self], the call goes through, [self] being taken out of the
    keyword arguments. *)
Theorem start_end_log_receiver (h : heap) (self : value) (args : list value)
    (kw kw1 kw2 : kwargs) (sp : string) :
  kw_lookup "self" kw = None ->
  kw_lookup "self" kw1 = None ->
  kw_lookup "self" kw2 = None ->
  py_mul_str (attr_or h (c_ref f) "log_level" (VInt 0)) "  " = Return sp ->
  (let r := c_call f (self :: args) kw h in
   c_call w (self :: args) kw h
   = Res (r_out r) (r_heap r)
         ((nl +:+ sp +:+ "+++[" +:+ c_name f +:+ " <- " +:+ py_str (VTuple args)
              +:+ " - " +:+ py_str (kwargs_dict kw) +:+ "]" +:+ nl)
          +:+ r_stdout r
          +:+ match r_out r with
              | Return result => end_line sp (c_name f) result +:+ nl
              | Raise _ => ""
              end))
  /\ c_call w [] kw h = Res (Raise (missing_positional inner_sig ["self"])) h ""
  /\ (let r := c_call f [self] (kw1 ++ kw2) h in
      c_call w [] (kw1 ++ ("self", self) :: kw2) h
      = Res (r_out r) (r_heap r)
            ((nl +:+ sp +:+ "+++[" +:+ c_name f +:+ " <- " +:+ py_str (VTuple [])
                 +:+ " - " +:+ py_str (kwargs_dict (kw1 ++ kw2)) +:+ "]" +:+ nl)
             +:+ r_stdout r
             +:+ match r_out r with
                 | Return result => end_line sp (c_name f) result +:+ nl
                 | Raise _ => ""
                 end)).
Proof.
  intros Hkw Hkw1 Hkw2 Hsp. split_and!.
  - rewrite (wrapped_call f w h0 wrapped (self :: args) kw self args kw
               (bind_inner_positional self args kw Hkw) h sp Hsp).
    cbn zeta. unfold start_line. rewrite <- !app_assoc. reflexivity.
  - destruct (start_end_log_call _ _ _ wrapped) as (-> & _ & _).
    rewrite inner_traced. unfold traced. now rewrite bind_inner_missing.
  - rewrite (wrapped_call f w h0 wrapped [] (kw1 ++ ("self", self) :: kw2) self []
               (kw1 ++ kw2) (bind_inner_keyword self kw1 kw2 Hkw1 Hkw2) h sp Hsp).
    cbn zeta. unfold start_line. rewrite <- !app_assoc. reflexivity.
Qed.

End Delegation.

Section Order.
Import Call Logs Trace StrFacts HeapFacts CallFacts LogFacts.

Variable f : callable.

(** C9: applied outside the tracer, [level_log(n)] returns the closure
    itself and writes [log_level] on the closure, not on [f]; a call still
    reads the level off [f], so when the live function [f] has no
    [log_level] of its own the lines are not indented. *)
Theorem level_log_outside_tracer (h : heap) (n : Z) (d : gmap string value)
    (pos : list value) (kw : kwargs) (self : value) (args : list value)
    (kwargs' : kwargs) :
  h !! c_ref f = Some d ->
  d !! "log_level" = None ->
  bind_params inner_sig pos kw = Return ([self], args, kwargs') ->
  exists (w' : callable) (h' : heap),
    (start_end_log f ≫= level_log (VInt n)) h = Res (Return w') h' ""
    /\ c_call w' = start_end_log_inner f
    /\ c_ref w' <> c_ref f
    /\ attr_or h' (c_ref w') "log_level" (VInt 0) = VInt n
    /\ attrs_of h' (c_ref f) !! "log_level" = None
    /\ c_call w' pos kw h'
       = let r := c_call f (self :: args) kwargs' h' in
         Res (r_out r) (r_heap r)
             ((nl +:+ "+++[" +:+ c_name f +:+ " <- " +:+ py_str (VTuple args)
                  +:+ " - " +:+ py_str (kwargs_dict kwargs') +:+ "]" +:+ nl)
              +:+ r_stdout r
              +:+ match r_out r with
                  | Return result =>
                      "---[" +:+ c_name f +:+ " -> " +:+ py_str result +:+ "]"
                             +:+ nl +:+ nl
                  | Raise _ => ""
                  end).
Proof.
  intros Hd Hlevel Hbound.
  set (r' := fresh (dom h)).
  assert (r' <> c_ref f) as Hne by (apply fresh_not_live; eauto).
  set (w' := Callable r' "inner" (start_end_log_inner f)).
  exists w', (heap_setattr (<[r' := ∅]> h) r' "log_level" (VInt n)).
  assert (attrs_of (heap_setattr (<[r' := ∅]> h) r' "log_level" (VInt n)) (c_ref f)
            !! "log_level" = None) as Hnone.
  { rewrite attrs_of_setattr_other_ref by assumption.
    rewrite attrs_of_alloc_other by assumption.
    unfold attrs_of. rewrite Hd. exact Hlevel. }
  split_and!.
  - rewrite (bind_return _ _ h _ w' (start_end_log_run f h)). apply level_log_run.
  - reflexivity.
  - exact Hne.
  - apply attr_or_setattr_same.
  - exact Hnone.
  - cbn [c_call w']. rewrite inner_traced. unfold traced, attr_or.
    rewrite Hbound, Hnone. cbn [default]. rewrite indent_of_level_0. cbn [param nth].
    cbn zeta. unfold start_line, end_line.
    destruct (c_call f _ _ _) as [[result|e] h' out]; cbn [r_out r_heap r_stdout];
      rewrite <- ?app_assoc, ?app_nil_l; reflexivity.
Qed.

End Order.

Section Annotators.
Import Call Logs Trace StrFacts HeapFacts CallFacts LogFacts.

Variable f : callable.



(** The store in which the closure runs after [f] was annotated with a
    message and a level and then wrapped: the message is the last thing
    written into it. *)
Lemma annotated_store (level : value) (s : string) (h : heap) :
  let h2 := heap_setattr (heap_setattr h (c_ref f) "log_message" (VStr s))
                         (c_ref f) "log_level" level in
  <[fresh (dom h2) := ∅]> h2
  = heap_setattr
      (<[fresh ({[c_ref f]} ∪ dom h) := ∅]> (heap_setattr h (c_ref f) "log_level" level))
      (c_ref f) "log_message" (VStr s).
Proof.
  intros h2.
  assert (dom h2 = {[c_ref f]} ∪ dom h) as Hdom.
  { unfold h2. rewrite !dom_setattr. now rewrite (assoc_L (∪)), (idemp_L (∪)). }
  rewrite Hdom. unfold h2. rewrite (heap_setattr_comm h (c_ref f) "log_message" "log_level")
    by discriminate.
  apply heap_setattr_alloc.
  intros Heq. apply (is_fresh ({[c_ref f]} ∪ dom h)). rewrite <- Heq.
  apply elem_of_union_l. now apply elem_of_singleton.
Qed.

(** C6, amended: let [f] be a function whose result and output do not
    depend on its own [log_message].  Annotated with the message [s1] or
    with the message [s2], then with the same level, then wrapped, a call
    with the same arguments writes the same text and ends the same way: the
    message is stored and never printed. *)
Theorem message_log_not_traced (level : value) (s1 s2 : string) (h : heap)
    (pos : list value) (kw : kwargs) :
  (forall (h' : heap) (v : value) (a : list value) (k : kwargs),
      r_out (c_call f a k (heap_setattr h' (c_ref f) "log_message" v))
      = r_out (c_call f a k h')
      /\ r_stdout (c_call f a k (heap_setattr h' (c_ref f) "log_message" v))
         = r_stdout (c_call f a k h')) ->
  let run := fun s : string =>
    (f1 ← message_log (VStr s) f; f2 ← level_log level f1;
     w ← start_end_log f2; c_call w pos kw) h in
  r_out (run s1) = r_out (run s2) /\ r_stdout (run s1) = r_stdout (run s2).
Proof.
  intros Hignore run.
  assert (forall s : string,
             r_out (run s)
             = r_out (traced f pos kw
                 (<[fresh ({[c_ref f]} ∪ dom h) := ∅]>
                    (heap_setattr h (c_ref f) "log_level" level)))
             /\ r_stdout (run s)
                = r_stdout (traced f pos kw
                    (<[fresh ({[c_ref f]} ∪ dom h) := ∅]>
                       (heap_setattr h (c_ref f) "log_level" level)))) as Hrun.
  { intros s. unfold run.
    rewrite (bind_return _ _ h _ f (message_log_run (VStr s) f h)).
    rewrite (bind_return _ _ _ _ f (level_log_run level f _)).
    rewrite (bind_return _ _ _ _ _ (start_end_log_run f _)).
    cbn [c_call]. rewrite inner_traced, annotated_store.
    set (H0 := <[_ := ∅]> (heap_setattr h (c_ref f) "log_level" level)).
    unfold traced.
    rewrite attr_or_setattr_other_name by discriminate.
    destruct (bind_params inner_sig pos kw) as [[[params args] kwargs']|e];
      [|split; reflexivity].
    destruct (py_mul_str _ _) as [sp|e]; [|split; reflexivity].
    cbn [r_out r_stdout].
    destruct (Hignore H0 (VStr s) (param 0 params :: args) kwargs') as [-> ->].
    split; reflexivity. }
  destruct (Hrun s1) as [-> ->]. destruct (Hrun s2) as [-> ->]. split; reflexivity.
Qed.

End Annotators.

(** * The claims about [views.py] *)

Section Handler.
Import Call Logs Views StrFacts LogFacts.

Variables (self_retrieve self_list : callable).
Variables (self request : value).

(** The dispatch of [get]: a key that is not zero goes to [self.retrieve],
    no key and the key zero go to [self.list]. *)
Lemma get_dispatch (h : heap) :
  (forall k : Z,
      k <> 0%Z ->
      get_body self_retrieve self_list [self; request] [("key", VInt k)] h
      = c_call self_retrieve [self; request] [] h)
  /\ get_body self_retrieve self_list [self; request] [] h
     = c_call self_list [self; request] [] h
  /\ get_body self_retrieve self_list [self; request] [("key", VInt 0)] h
     = c_call self_list [self; request] [] h.
Proof.
  assert (forall key : value,
             bind_params get_sig [self; request] [("key", key)]
             = Return ([self; request; key], [], [])) as Hkey by reflexivity.
  assert (bind_params get_sig [self; request] []
          = Return ([self; request; VNone], [], [])) as Hnone by reflexivity.
  unfold get_body. rewrite Hkey, Hnone. split_and!.
  - intros k Hk. rewrite Hkey, bind_lift_return.
    cbn [param nth py_truthy].
    destruct (Z.eqb_spec k 0) as [Hz|_]; [congruence | reflexivity].
  - now rewrite bind_lift_return.
  - now rewrite bind_lift_return.
Qed.

End Handler.

(** C1, at the detail route with the key 0: the path [APIView/0/] matches the
    detail route and gives [get] the key 0, and [get] then runs [self.list],
    whatever [self.retrieve] and [self.list] are.  With a framework whose
    [list] answers [users] and whose [retrieve] answers [user], the request
    is answered [users] and the trace shows [list] inside [get], while the
    key 1 is answered [user]. *)
Theorem get_key_zero_runs_list (self_retrieve self_list : callable)
    (self request : value) (h : heap) :
  Urls.resolve "APIView/0/" = Some [("key", VInt 0)]
  /\ Views.get_body self_retrieve self_list [self; request] [("key", VInt 0)] h
     = c_call self_list [self; request] [] h
  /\ Views.serve_get Sample.list_stub Sample.retrieve_stub Sample.view Sample.request
       "APIView/0/" Sample.empty_heap
     = Res (Return (VStr "users"))
           (r_heap (Views.CustomGenericAPIView Sample.list_stub Sample.retrieve_stub
                      Sample.empty_heap))
           ((Logs.start_line "  " "get" [Sample.request] [("key", VInt 0)] +:+ nl)
            +:+ ((Logs.start_line "    " "list" [Sample.request] [] +:+ nl)
                 +:+ (Logs.end_line "    " "list" (VStr "users") +:+ nl))
            +:+ (Logs.end_line "  " "get" (VStr "users") +:+ nl))
  /\ r_out (Views.serve_get Sample.list_stub Sample.retrieve_stub Sample.view
              Sample.request "APIView/1/" Sample.empty_heap)
     = Return (VStr "user").
Proof.
  split_and!.
  - reflexivity.
  - apply get_dispatch.
  - vm_compute. reflexivity.
  - vm_compute. reflexivity.
Qed.

(** * Concrete runs *)

Section Runs.
Import Call Logs Sample.




(** The claim C6 as it is stated fails for a function that reads its own
    message tag: with the tag [a] the wrapped form returns [a], with the tag
    [b] it returns [b], and the end lines differ. *)
Lemma message_read_by_function_shows :
  r_out ((f1 ← message_log (VStr "a") f_tag; f2 ← level_log (VInt 1) f1;
          w ← start_end_log f2; c_call w [view] []) heap0)
  = Return (VStr "a")
  /\ r_out ((f1 ← message_log (VStr "b") f_tag; f2 ← level_log (VInt 1) f1;
             w ← start_end_log f2; c_call w [view] []) heap0)
     = Return (VStr "b")
  /\ r_stdout ((f1 ← message_log (VStr "a") f_tag; f2 ← level_log (VInt 1) f1;
                w ← start_end_log f2; c_call w [view] []) heap0)
     <> r_stdout ((f1 ← message_log (VStr "b") f_tag; f2 ← level_log (VInt 1) f1;
                   w ← start_end_log f2; c_call w [view] []) heap0).
Proof.
  split_and!; [vm_compute; reflexivity | vm_compute; reflexivity |].
  vm_compute. discriminate.
Qed.

(** The claim C10 as it is stated fails when the receiver is passed by
    keyword: the call has no positional argument, and returns. *)
Lemma keyword_self_call_returns :
  r_out ((w ← start_end_log f_echo; c_call w [] [("self", view)]) heap0)
  = Return (VTuple [view]).
Proof. vm_compute. reflexivity. Qed.




Lemma start_end_log_no_metadata_witness :
  attrs_of heap0 (c_ref f_echo) !! "log_level" = None
  /\ attrs_of heap0 (c_ref f_echo) !! "log_message" = None
  /\ r_out (getattr f_echo "log_level" (VInt 0) heap0) = Return (VInt 0)
  /\ r_out (c_call w_echo [view] [] heap0) = Return (VTuple [view])
  /\ trace_indent (r_stdout (c_call w_echo [view] [] heap0)) = 0%nat.
Proof.
  assert (r_out (start_end_log f_echo heap0) = Return w_echo) as Hw
    by reflexivity.
  assert (bind_params inner_sig [view] [] = Return ([view], [], [])) as Hb
    by (vm_compute; reflexivity).
  assert (attrs_of heap0 (c_ref f_echo) !! "log_level" = None) as Hl
    by (vm_compute; reflexivity).
  assert (attrs_of heap0 (c_ref f_echo) !! "log_message" = None) as Hm
    by (vm_compute; reflexivity).
  destruct (start_end_log_no_metadata f_echo w_echo heap0 Hw [view] [] view [] []
              Hb heap0 Hl Hm) as (_ & Hlevel & Hcall).
  split_and!; [exact Hl | exact Hm | exact Hlevel | |].
  - rewrite Hcall. vm_compute. reflexivity.
  - rewrite Hcall. vm_compute. reflexivity.
Defined.

Lemma start_end_log_receiver_witness :
  kw_lookup "self" [("k", VStr "v")] = None
  /\ c_call w_echo [] [("k", VStr "v")] (heap_level 1)
     = Res (Raise (missing_positional inner_sig ["self"])) (heap_level 1) ""
  /\ r_out (c_call w_echo [] [("a", VInt 1); ("self", view)] (heap_level 1))
     = Return (VTuple [view]).
Proof.
  assert (r_out (start_end_log f_echo heap0) = Return w_echo) as Hw
    by reflexivity.
  assert (kw_lookup "self" [("k", VStr "v")] = None) as Hkw by reflexivity.
  assert (kw_lookup "self" [("a", VInt 1)] = None) as Hkw1 by reflexivity.
  assert (kw_lookup "self" [] = None) as Hkw2 by reflexivity.
  assert (py_mul_str (attr_or (heap_level 1) (c_ref f_echo) "log_level" (VInt 0)) "  "
          = Return "  ") as Hsp by (vm_compute; reflexivity).
  destruct (start_end_log_receiver f_echo w_echo heap0 Hw (heap_level 1) view
              [VInt 7] [("k", VStr "v")] [("a", VInt 1)] [] "  " Hkw Hkw1 Hkw2 Hsp)
    as (_ & Hmissing & Hkeyword).
  split_and!; [exact Hkw | exact Hmissing |].
  change ([("a", VInt 1); ("self", view)]) with ([("a", VInt 1)] ++ [("self", view)]).
  rewrite Hkeyword. vm_compute. reflexivity.
Defined.

Lemma level_log_outside_tracer_witness :
  heap0 !! c_ref f_echo = Some ∅
  /\ exists (w' : callable) (h' : heap),
       (start_end_log f_echo ≫= level_log (VInt 3)) heap0 = Res (Return w') h' ""
       /\ c_ref w' <> c_ref f_echo
       /\ attr_or h' (c_ref w') "log_level" (VInt 0) = VInt 3
       /\ attrs_of h' (c_ref f_echo) !! "log_level" = None.
Proof.
  assert (heap0 !! c_ref f_echo = Some ∅) as Hd by (vm_compute; reflexivity).
  assert ((∅ : gmap string value) !! "log_level" = None) as Hl by reflexivity.
  assert (bind_params inner_sig [view] [] = Return ([view], [], [])) as Hb
    by (vm_compute; reflexivity).
  destruct (level_log_outside_tracer f_echo heap0 3%Z ∅ [view] [] view [] []
              Hd Hl Hb) as (w' & h' & H1 & _ & H3 & H4 & H5 & _).
  split; [exact Hd |]. exists w', h'. split_and!; assumption.
Defined.

Lemma message_log_not_traced_witness :
  r_out ((f1 ← message_log (VStr "LMM") f_echo; f2 ← level_log (VInt 1) f1;
          w ← start_end_log f2; c_call w [view] []) heap0)
  = r_out ((f1 ← message_log (VStr "other") f_echo; f2 ← level_log (VInt 1) f1;
            w ← start_end_log f2; c_call w [view] []) heap0)
  /\ r_stdout ((f1 ← message_log (VStr "LMM") f_echo; f2 ← level_log (VInt 1) f1;
                w ← start_end_log f2; c_call w [view] []) heap0)
     = r_stdout ((f1 ← message_log (VStr "other") f_echo; f2 ← level_log (VInt 1) f1;
                  w ← start_end_log f2; c_call w [view] []) heap0).
Proof.
  apply (message_log_not_traced f_echo (VInt 1) "LMM" "other" heap0 [view] []).
  intros h' v a k. split; reflexivity.
Defined.

End Runs.


(** * More about [account/urls.py] *)

Module UrlFacts.
Import Urls Digits StrFacts.

Lemma strip_prefix_Some (p s rest : string) :
  strip_prefix p s = Some rest -> s = p +:+ rest.
Proof.
  revert s. induction p as [|a p IH]; intros s H.
  - cbn in H. now injection H as ->.
  - destruct s as [|b s]; [discriminate|]. cbn [strip_prefix] in H.
    destruct (Ascii.eqb_spec a b) as [->|]; [|discriminate].
    rewrite app_cons. f_equal. now apply IH.
Qed.

Lemma strip_prefix_app (p rest : string) : strip_prefix p (p +:+ rest) = Some rest.
Proof.
  induction p as [|a p IH]; [reflexivity|].
  rewrite app_cons. cbn [strip_prefix]. now rewrite Ascii.eqb_refl.
Qed.

Lemma span_digits_split (s : string) :
  s = fst (span_digits s) +:+ snd (span_digits s)
  /\ all_digits (fst (span_digits s)) = true.
Proof.
  induction s as [|c s [IH1 IH2]]; [split; reflexivity|].
  cbn [span_digits]. destruct (is_digit c) eqn:Hc; cbn [fst snd].
  - rewrite app_cons, <- IH1. cbn [all_digits]. rewrite Hc, IH2. split; reflexivity.
  - split; reflexivity.
Qed.

Lemma span_digits_app (ds : string) (c : ascii) (rest : string) :
  all_digits ds = true -> is_digit c = false ->
  span_digits (ds +:+ String c rest) = (ds, String c rest).
Proof.
  intros Hds Hc. induction ds as [|d ds IH].
  - rewrite app_nil_l. cbn [span_digits]. now rewrite Hc.
  - cbn [all_digits] in Hds. apply andb_prop in Hds as [Hd Hds].
    rewrite app_cons. cbn [span_digits]. rewrite Hd, (IH Hds). reflexivity.
Qed.

Lemma int_of_digits_app (acc : Z) (a b : string) :
  int_of_digits acc (a +:+ b) = int_of_digits (int_of_digits acc a) b.
Proof.
  revert acc. induction a as [|c a IH]; intros acc; [reflexivity|].
  rewrite app_cons. cbn [int_of_digits]. apply IH.
Qed.

Lemma int_of_digits_nonneg (acc : Z) (s : string) :
  (0 <= acc)%Z -> (0 <= int_of_digits acc s)%Z.
Proof.
  revert acc. induction s as [|c s IH]; intros acc Hacc; [exact Hacc|].
  cbn [int_of_digits]. apply IH. lia.
Qed.

Lemma pretty_N_char_digit (d : N) : is_digit (pretty_N_char d) = true.
Proof. unfold pretty_N_char. repeat case_match; reflexivity. Qed.

Lemma pretty_N_char_value (d : N) :
  (d < 10)%N -> (N_of_ascii (pretty_N_char d) - 48)%N = d.
Proof.
  intros Hd.
  assert (d = 0 \/ d = 1 \/ d = 2 \/ d = 3 \/ d = 4 \/ d = 5 \/ d = 6 \/ d = 7
          \/ d = 8 \/ d = 9)%N as Hcases by lia.
  repeat (destruct Hcases as [->|Hcases]; [reflexivity|]). now subst.
Qed.

(** The digits that [pretty_N_go x] puts in front of [s] are decimal digits,
    read back as [x], and start with no zero. *)
Lemma pretty_N_go_digits (x : N) (s : string) :
  exists ds : string,
    pretty_N_go x s = ds +:+ s
    /\ all_digits ds = true
    /\ ((0 < x)%N -> ds <> "")
    /\ (x = 0%N -> ds = "")
    /\ ((0 < x)%N -> (10 ^ (Z.of_nat (String.length ds) - 1) <= Z.of_N x)%Z)
    /\ forall acc : Z,
         int_of_digits acc ds
         = (acc * 10 ^ Z.of_nat (String.length ds) + Z.of_N x)%Z.
Proof.
  revert s. induction (N.lt_wf_0 x) as [x _ IH]. intros s.
  destruct (N.eq_dec x 0%N) as [->|Hx].
  - exists "". rewrite pretty_N_go_0.
    split_and!; [reflexivity | reflexivity | intros ?; lia | reflexivity
                 | intros ?; lia |].
    intros acc. cbn [int_of_digits String.length Z.of_nat Z.of_N]. lia.
  - assert (0 < x)%N as Hpos by lia.
    rewrite pretty_N_go_step by assumption.
    destruct (IH (x `div` 10)%N (N.div_lt x 10 Hpos eq_refl)
                 (String (pretty_N_char (x `mod` 10)) s))
      as (ds & Hgo & Hall & _ & Hzero & Hlow & Hval).
    exists (ds +:+ String (pretty_N_char (x `mod` 10)) "").
    assert ((x `mod` 10 < 10)%N) as Hmod by (apply N.mod_lt; lia).
    assert (Z.of_N x = 10 * Z.of_N (x `div` 10) + Z.of_N (x `mod` 10))%Z as Hdm.
    { rewrite (N.div_mod x 10) at 1 by lia.
      rewrite N2Z.inj_add, N2Z.inj_mul. reflexivity. }
    assert (Z.of_nat (String.length (ds +:+ String (pretty_N_char (x `mod` 10)) ""))
            = Z.of_nat (String.length ds) + 1)%Z as Hlen.
    { rewrite length_app. cbn [String.length]. lia. }
    split_and!.
    + rewrite Hgo, <- app_assoc. reflexivity.
    + clear Hgo Hval Hzero Hlow Hlen. induction ds as [|d ds IHds].
      * rewrite app_nil_l. cbn [all_digits]. now rewrite pretty_N_char_digit.
      * cbn [all_digits] in Hall. apply andb_prop in Hall as [Hd Hall].
        rewrite app_cons. cbn [all_digits]. now rewrite Hd, IHds.
    + intros _. destruct ds; discriminate.
    + intros ->. lia.
    + intros _. rewrite Hlen.
      replace (Z.of_nat (String.length ds) + 1 - 1)%Z with (Z.of_nat (String.length ds))
        by lia.
      destruct (N.eq_dec (x `div` 10)%N 0%N) as [Hq|Hq].
      * rewrite (Hzero Hq). cbn [String.length Z.of_nat]. change (10 ^ 0)%Z with 1%Z. lia.
      * assert (10 ^ (Z.of_nat (String.length ds) - 1) <= Z.of_N (x `div` 10))%Z
          as Hq' by (apply Hlow; lia).
        assert (ds <> "") as Hne.
        { intros ->. specialize (Hval 0%Z). cbn in Hval. lia. }
        assert (1 <= Z.of_nat (String.length ds))%Z
          by (destruct ds; [contradiction | cbn [String.length]; lia]).
        replace (Z.of_nat (String.length ds))
          with (1 + (Z.of_nat (String.length ds) - 1))%Z by lia.
        rewrite Z.pow_add_r by lia. change (10 ^ 1)%Z with 10%Z.
        pose proof (N2Z.is_nonneg (x `mod` 10)) as Hr.
        revert Hq' Hdm Hr.
        generalize (10 ^ (Z.of_nat (String.length ds) - 1))%Z (Z.of_N (x `div` 10))
          (Z.of_N (x `mod` 10)) (Z.of_N x).
        intros. lia.
    + intros acc. rewrite int_of_digits_app, Hval. cbn [int_of_digits].
      rewrite pretty_N_char_value by assumption.
      rewrite Hlen, Z.pow_add_r by lia. rewrite Hdm. ring.
Qed.

(** [str(z)] of an integer that is not negative: decimal digits that read
    back as [z], and no more of them than the powers of ten below [z]. *)
Lemma pretty_Z_digits (z : Z) :
  (0 <= z)%Z ->
  pretty z <> "" /\ all_digits (pretty z) = true /\ int_of_digits 0 (pretty z) = z
  /\ forall k : Z, (0 <= k)%Z -> (z < 10 ^ k)%Z -> (z = 0 -> 1 <= k)%Z ->
                   (Z.of_nat (String.length (pretty z)) <= k)%Z.
Proof.
  intros Hz. destruct z as [|p|p]; [ | | lia].
  { split_and!; [discriminate | reflexivity | reflexivity |].
    intros k _ _ Hk. cbn. specialize (Hk eq_refl). lia. }
  unfold pretty, pretty_Z, pretty, pretty_positive, pretty, pretty_N.
  destruct (decide (N.pos p = 0%N)) as [|_]; [discriminate|].
  destruct (pretty_N_go_digits (N.pos p) "") as (ds & Hgo & Hall & Hne & _ & Hlow & Hval).
  rewrite Hgo, app_nil_r. split_and!.
  - apply Hne. lia.
  - exact Hall.
  - rewrite Hval. cbn [Z.of_N]. lia.
  - intros k Hk Hlt _.
    assert (10 ^ (Z.of_nat (String.length ds) - 1) <= Z.pos p)%Z as Hlow'
      by (apply Hlow; lia).
    assert (10 ^ (Z.of_nat (String.length ds) - 1) < 10 ^ k)%Z as Hpow by lia.
    apply Z.pow_lt_mono_r_iff in Hpow; lia.
Qed.

End UrlFacts.

Section Routes.
Import Urls Digits StrFacts UrlFacts.

(** X1: a path that resolves is either exactly [APIView/], with no keyword
    argument, or [APIView/] followed by one or more decimal digits and a
    slash, with the one keyword argument [key] holding the number the digits
    denote, which is never negative. *)
Theorem resolve_sound (path : string) (kw : kwargs) :
  resolve path = Some kw ->
  (path = "APIView/" /\ kw = [])
  \/ (exists ds : string,
         ds <> "" /\ all_digits ds = true
         /\ path = "APIView/" +:+ ds +:+ "/"
         /\ kw = [("key", VInt (int_of_digits 0 ds))]
         /\ (0 <= int_of_digits 0 ds)%Z).
Proof.
  unfold resolve, urlpatterns, resolve_in, match_list, match_detail, py_int.
  destruct (String.eqb_spec path "APIView/") as [->|Hpath].
  - intros [= <-]. now left.
  - destruct (strip_prefix "APIView/" path) as [rest|] eqn:Hstrip; [|discriminate].
    apply strip_prefix_Some in Hstrip.
    destruct (span_digits_split rest) as [Hrest Hall].
    destruct (String.eqb_spec (fst (span_digits rest)) "") as [|Hne];
      cbn [negb andb]; [discriminate|].
    destruct (String.eqb_spec (snd (span_digits rest)) "/") as [Htail|];
      [|discriminate].
    destruct (String.length (fst (span_digits rest)) <=? int_max_str_digits)%nat;
      [|discriminate].
    intros [= <-]. right. exists (fst (span_digits rest)).
    split_and!; [exact Hne | exact Hall | | reflexivity |].
    + rewrite Hstrip. f_equal. rewrite Hrest at 1. now rewrite Htail.
    + now apply int_of_digits_nonneg.
Qed.

(** X2: a path made of [APIView/], one or more decimal digits and a slash
    resolves to the key the digits denote when there are at most 4300
    digits, and does not resolve when there are more. *)
Theorem resolve_complete (ds : string) :
  ds <> "" -> all_digits ds = true ->
  resolve ("APIView/" +:+ ds +:+ "/")
  = if (String.length ds <=? 4300)%nat
    then Some [("key", VInt (int_of_digits 0 ds))]
    else None.
Proof.
  intros Hne Hall.
  unfold resolve, urlpatterns, resolve_in, match_list, match_detail, py_int,
    int_max_str_digits.
  assert (String.eqb ("APIView/" +:+ ds +:+ "/") "APIView/" = false) as ->.
  { apply String.eqb_neq. intros Heq.
    apply (f_equal String.length) in Heq. rewrite !length_app in Heq.
    cbn [String.length] in Heq. destruct ds; [congruence | cbn in Heq; lia]. }
  rewrite strip_prefix_app.
  rewrite (span_digits_app ds "/" "" Hall eq_refl). cbn [fst snd].
  destruct (String.eqb_spec ds "") as [|_]; [contradiction|].
  cbn [negb andb]. rewrite String.eqb_refl.
  now destruct (String.length ds <=? 4300)%nat.
Qed.

(** X3: the path built from [str(z)] for an integer [z] that is not negative
    and has at most 4300 digits resolves to the key [z]. *)
Theorem resolve_str_roundtrip (z : Z) :
  (0 <= z < 10 ^ 4300)%Z ->
  resolve ("APIView/" +:+ pretty z +:+ "/") = Some [("key", VInt z)].
Proof.
  intros [Hz Hmax]. destruct (pretty_Z_digits z Hz) as (Hne & Hall & Hval & Hlen).
  rewrite (resolve_complete (pretty z) Hne Hall), Hval.
  assert (Z.of_nat (String.length (pretty z)) <= 4300)%Z as Hle
    by (apply Hlen; [lia | exact Hmax | lia]).
  destruct (Nat.leb_spec (String.length (pretty z)) 4300) as [_|Hgt]; [reflexivity | lia].
Qed.

(** X4: a zero in front of fewer than 4300 digits does not change what the
    path resolves to. *)
Theorem resolve_leading_zero (ds : string) :
  ds <> "" -> all_digits ds = true -> (String.length ds < 4300)%nat ->
  resolve ("APIView/" +:+ String "0" ds +:+ "/") = resolve ("APIView/" +:+ ds +:+ "/").
Proof.
  intros Hne Hall Hlen.
  rewrite (resolve_complete ds Hne Hall).
  rewrite (resolve_complete (String "0" ds)); [| discriminate |].
  - cbn [String.length].
    destruct (Nat.leb_spec (S (String.length ds)) 4300) as [_|]; [|lia].
    destruct (Nat.leb_spec (String.length ds) 4300) as [_|]; [|lia].
    reflexivity.
  - cbn [all_digits]. now rewrite Hall.
Qed.

Lemma resolve_sound_witness :
  resolve "APIView/042/" = Some [("key", VInt 42)]
  /\ ((("APIView/042/" : string) = "APIView/" /\ [("key", VInt 42)] = ([] : kwargs))
      \/ (exists ds : string,
             ds <> "" /\ all_digits ds = true
             /\ "APIView/042/" = "APIView/" +:+ ds +:+ "/"
             /\ [("key", VInt 42)] = [("key", VInt (int_of_digits 0 ds))]
             /\ (0 <= int_of_digits 0 ds)%Z)).
Proof.
  split; [reflexivity|].
  apply (resolve_sound "APIView/042/" [("key", VInt 42)]). reflexivity.
Defined.

Lemma resolve_complete_witness :
  "007"%string <> ""%string /\ all_digits "007" = true
  /\ resolve "APIView/007/" = Some [("key", VInt 7)].
Proof.
  split_and!; [discriminate | reflexivity |].
  exact (resolve_complete "007" ltac:(discriminate) eq_refl).
Defined.

Lemma resolve_str_roundtrip_witness :
  resolve "APIView/2026/" = Some [("key", VInt 2026)].
Proof.
  apply (resolve_str_roundtrip 2026).
  split; [lia|]. apply (Z.lt_le_trans _ (10 ^ 4)%Z); [lia|].
  apply Z.pow_le_mono_r; lia.
Defined.

Lemma resolve_leading_zero_witness :
  "42"%string <> ""%string /\ all_digits "42" = true
  /\ (String.length "42" < 4300)%nat
  /\ resolve "APIView/042/" = resolve "APIView/42/".
Proof.
  split_and!; [discriminate | reflexivity | cbn; lia |].
  exact (resolve_leading_zero "42" ltac:(discriminate) eq_refl ltac:(cbn; lia)).
Defined.

End Routes.

(** * More about [logs.py] *)

Module StoreFacts.
Import HeapFacts.

Lemma attr_or_alloc_other (h : heap) (r r' : ref) (name : string) (dflt : value) :
  r' <> r -> attr_or (<[r' := ∅]> h) r name dflt = attr_or h r name dflt.
Proof. intros Hne. unfold attr_or. now rewrite attrs_of_alloc_other. Qed.

Lemma attr_or_alloc_same (h : heap) (r : ref) (name : string) (dflt : value) :
  attr_or (<[r := ∅]> h) r name dflt = dflt.
Proof. unfold attr_or, attrs_of. now rewrite lookup_insert_eq. Qed.

Lemma fresh_alloc_distinct (h : heap) (r : ref) :
  fresh (dom (<[r := ∅]> h)) <> r.
Proof. apply fresh_not_live. rewrite lookup_insert_eq. eauto. Qed.

Lemma fresh_alloc_not_live (h : heap) (r r' : ref) :
  is_Some (h !! r) -> fresh (dom (<[r' := ∅]> h)) <> r.
Proof.
  intros Hr. apply fresh_not_live.
  destruct (decide (r' = r)) as [->|Hne].
  - rewrite lookup_insert_eq. eauto.
  - now rewrite lookup_insert_ne.
Qed.

(** Writing an attribute twice keeps the second value only. *)
Lemma heap_setattr_twice (h : heap) (r : ref) (name : string) (v1 v2 : value) :
  heap_setattr (heap_setattr h r name v1) r name v2 = heap_setattr h r name v2.
Proof.
  unfold heap_setattr, attrs_of. rewrite lookup_insert_eq. cbn.
  now rewrite !insert_insert_eq.
Qed.

End StoreFacts.

Section TracerEdges.
Import Call Logs Trace StrFacts HeapFacts CallFacts LogFacts StoreFacts.

Variable f : callable.

(** X5: the closure that [start_end_log] returns is itself named [inner] and
    carries no level (the name and the metadata of [f] are not copied to
    it), so tracing the traced [f] writes an unindented pair of lines for
    [inner] around the lines for [f], which keep the indentation of [f]. *)
Theorem start_end_log_twice (h : heap) (d : gmap string value) (self : value)
    (args : list value) (kw : kwargs) (sp : string) :
  h !! c_ref f = Some d ->
  kw_lookup "self" kw = None ->
  py_mul_str (default (VInt 0) (d !! "log_level")) "  " = Return sp ->
  exists h2 : heap,
    (forall name : string, attrs_of h2 (c_ref f) !! name = d !! name)
    /\ (w1 ← start_end_log f; w2 ← start_end_log w1; c_call w2 (self :: args) kw) h
       = let r := c_call f (self :: args) kw h2 in
         Res (r_out r) (r_heap r)
             ((start_line "" "inner" args kw +:+ nl)
              +:+ ((start_line sp (c_name f) args kw +:+ nl)
                   +:+ r_stdout r
                   +:+ match r_out r with
                       | Return result => end_line sp (c_name f) result +:+ nl
                       | Raise _ => ""
                       end)
              +:+ match r_out r with
                  | Return result => end_line "" "inner" result +:+ nl
                  | Raise _ => ""
                  end).
Proof.
  intros Hd Hkw Hsp.
  set (b1 := fresh (dom h)).
  set (w1 := Callable b1 "inner" (start_end_log_inner f)).
  set (h1 := <[b1 := ∅]> h).
  set (b2 := fresh (dom h1)).
  set (h2 := <[b2 := ∅]> h1).
  assert (b1 <> c_ref f) as Hb1 by (apply fresh_not_live; eauto).
  assert (b2 <> c_ref f) as Hb2 by (apply fresh_alloc_not_live; eauto).
  assert (b2 <> b1) as Hb21 by apply fresh_alloc_distinct.
  assert (attrs_of h2 (c_ref f) = d) as Hattrs.
  { unfold h2, h1. rewrite !attrs_of_alloc_other by assumption.
    unfold attrs_of. now rewrite Hd. }
  exists h2. split; [intros name; now rewrite Hattrs|].
  rewrite (bind_return _ _ h h1 w1 (start_end_log_run f h)).
  rewrite (bind_return _ _ h1 h2 _ (start_end_log_run w1 h1)).
  cbn [c_call]. rewrite inner_traced. unfold traced.
  rewrite (bind_inner_positional self args kw Hkw).
  cbn [c_ref w1 c_name]. unfold h2 at 1.
  rewrite attr_or_alloc_other by assumption. unfold h1 at 1.
  rewrite attr_or_alloc_same.
  rewrite indent_of_level_0. cbn [param nth c_call w1].
  rewrite inner_traced. unfold traced.
  rewrite (bind_inner_positional self args kw Hkw).
  unfold attr_or. rewrite Hattrs, Hsp. cbn [param nth].
  destruct (c_call f (self :: args) kw h2) as [[result|e] h' out];
    cbn [r_out r_heap r_stdout]; rewrite <- ?app_assoc, ?app_nil_r; reflexivity.
Qed.

(** X6: when the level attached to [f] is [None], a string, a tuple or a
    dictionary, every call of the wrapped form raises a [TypeError] before
    it writes anything and without running [f]; the store is the one the
    decorators left. *)
Theorem start_end_log_bad_level (level : value) (h : heap) (pos : list value)
    (kw : kwargs) (self : value) (args : list value) (kwargs' : kwargs) :
  match level with VNone | VStr _ | VTuple _ | VDict _ => True | _ => False end ->
  bind_params inner_sig pos kw = Return ([self], args, kwargs') ->
  exists msg : string,
    (f1 ← level_log level f; w ← start_end_log f1; c_call w pos kw) h
    = Res (Raise (TypeError msg))
          (r_heap ((f1 ← level_log level f; start_end_log f1) h)) "".
Proof.
  intros Hlevel Hbound.
  assert (exists msg, py_mul_str level "  " = Raise (TypeError msg)) as [msg Hmsg]
    by (destruct level; try contradiction; cbn; eauto).
  exists msg.
  rewrite !(bind_return _ _ h _ f (level_log_run level f h)).
  rewrite (bind_return _ _ _ _ _ (start_end_log_run f _)).
  rewrite start_end_log_run. cbn [c_call r_heap].
  rewrite inner_traced. unfold traced. rewrite Hbound.
  rewrite attr_or_alloc_other.
  - now rewrite attr_or_setattr_same, Hmsg.
  - apply fresh_not_live. unfold heap_setattr. rewrite lookup_insert_eq. eauto.
Qed.

(** X7: the level is read when the wrapped form is called, not when [f] is
    wrapped: a level attached to [f] after [start_end_log] was applied
    indents the lines of the calls that follow (for a level whose
    indentation is built, [level_fits]). *)
Theorem level_log_after_wrapping (n : Z) (h : heap) (pos : list value) (kw : kwargs)
    (self : value) (args : list value) (kwargs' : kwargs) :
  level_fits n ->
  bind_params inner_sig pos kw = Return ([self], args, kwargs') ->
  let indent := Str.spaces (Z.to_nat (2 * n)) in
  let r := c_call f (self :: args) kwargs'
             (r_heap ((w ← start_end_log f; level_log (VInt n) f) h)) in
  (w ← start_end_log f; _ ← level_log (VInt n) f; c_call w pos kw) h
  = Res (r_out r) (r_heap r)
        ((start_line indent (c_name f) args kwargs' +:+ nl)
         +:+ r_stdout r
         +:+ match r_out r with
             | Return result => end_line indent (c_name f) result +:+ nl
             | Raise _ => ""
             end).
Proof.
  intros Hfits Hbound indent r. unfold r. clear r.
  rewrite !(bind_return _ _ h _ _ (start_end_log_run f h)).
  rewrite (bind_return _ _ _ _ f (level_log_run (VInt n) f _)).
  rewrite level_log_run. cbn [c_call r_heap].
  rewrite inner_traced. unfold traced. rewrite Hbound.
  rewrite attr_or_setattr_same, indent_of_level by assumption.
  replace (2 * Z.to_nat n)%nat with (Z.to_nat (2 * n)) by lia.
  reflexivity.
Qed.

(** X21: a level of [2^62] or more cannot be turned into an indentation:
    every call of the wrapped form raises an [OverflowError] before it
    writes anything and without running [f]. *)
Theorem start_end_log_huge_level (n : Z) (h : heap) (pos : list value) (kw : kwargs)
    (self : value) (args : list value) (kwargs' : kwargs) :
  (4611686018427387904 <= n)%Z ->
  bind_params inner_sig pos kw = Return ([self], args, kwargs') ->
  exists msg : string,
    (f1 ← level_log (VInt n) f; w ← start_end_log f1; c_call w pos kw) h
    = Res (Raise (OverflowError msg))
          (r_heap ((f1 ← level_log (VInt n) f; start_end_log f1) h)) "".
Proof.
  intros Hn Hbound. destruct (str_repeat_overflow n Hn) as [msg Hmsg]. exists msg.
  rewrite !(bind_return _ _ h _ f (level_log_run (VInt n) f h)).
  rewrite (bind_return _ _ _ _ _ (start_end_log_run f _)).
  rewrite start_end_log_run. cbn [c_call r_heap].
  rewrite inner_traced. unfold traced. rewrite Hbound.
  rewrite attr_or_alloc_other.
  - rewrite attr_or_setattr_same. cbn [py_mul_str]. now rewrite Hmsg.
  - apply fresh_not_live. unfold heap_setattr. rewrite lookup_insert_eq. eauto.
Qed.

(** X8: annotating [f] a second time replaces the first annotation: after
    [level_log(a)] and then [level_log(b)] everything is as after
    [level_log(b)] alone, and likewise for [message_log]. *)
Theorem annotators_overwrite (a b m1 m2 : value) (h : heap) :
  (f1 ← level_log a f; level_log b f1) h = level_log b f h
  /\ (f1 ← message_log m1 f; message_log m2 f1) h = message_log m2 f h.
Proof.
  split.
  - rewrite (bind_return _ _ h _ f (level_log_run a f h)).
    rewrite !level_log_run. now rewrite heap_setattr_twice.
  - rewrite (bind_return _ _ h _ f (message_log_run m1 f h)).
    rewrite !message_log_run. now rewrite heap_setattr_twice.
Qed.

Variables (w : callable) (h0 : heap).
Hypothesis wrapped : r_out (start_end_log f h0) = Return w.

(** X9: a call that passes a receiver positionally and also a keyword
    argument named [self] raises a [TypeError]: nothing is written, [f] does
    not run, the store is unchanged. *)
Theorem start_end_log_self_twice (h : heap) (self : value) (args : list value)
    (kw : kwargs) :
  is_Some (kw_lookup "self" kw) ->
  c_call w (self :: args) kw h = Res (Raise (multiple_values inner_sig "self")) h "".
Proof.
  intros Hkw. destruct (start_end_log_call _ _ _ wrapped) as (-> & _ & _).
  rewrite inner_traced. unfold traced. now rewrite bind_inner_multiple.
Qed.

(** X10: the wrapped form writes into the store only what [f] writes: when
    no call of [f] changes the store [h], no call of the wrapped form does,
    whatever the arguments and the level. *)
Theorem start_end_log_store_frame (h : heap) (pos : list value) (kw : kwargs) :
  (forall (a : list value) (k : kwargs), r_heap (c_call f a k h) = h) ->
  r_heap (c_call w pos kw h) = h.
Proof.
  intros Hframe. destruct (start_end_log_call _ _ _ wrapped) as (-> & _ & _).
  rewrite inner_traced. unfold traced.
  destruct (bind_params inner_sig pos kw) as [[[params args] kwargs']|e];
    [|reflexivity].
  destruct (py_mul_str _ _) as [sp|e]; [|reflexivity].
  cbn [r_heap]. apply Hframe.
Qed.

End TracerEdges.


(** * More about [account/views.py] *)

Module ClassFacts.
Import Call Logs Views Store Trace StrFacts HeapFacts CallFacts LogFacts StoreFacts.

Lemma extends_refl (h : heap) : extends h h.
Proof. intros r _. reflexivity. Qed.

Lemma extends_live (h h' : heap) (r : ref) : extends h h' -> live h r -> live h' r.
Proof. intros Hext Hr. unfold live. now rewrite (Hext r Hr). Qed.

Lemma extends_trans (h1 h2 h3 : heap) : extends h1 h2 -> extends h2 h3 -> extends h1 h3.
Proof.
  intros H12 H23 r Hr. rewrite (H23 r (extends_live _ _ _ H12 Hr)). now apply H12.
Qed.

Lemma extends_attr_or (h h' : heap) (r : ref) (name : string) (dflt : value) :
  extends h h' -> live h r -> attr_or h' r name dflt = attr_or h r name dflt.
Proof. intros Hext Hr. unfold attr_or, attrs_of. now rewrite (Hext r Hr). Qed.

Lemma fresh_not_live' (h : heap) : ~ live h (fresh (dom h)).
Proof. intros Hr. now apply (fresh_not_live h (fresh (dom h)) Hr). Qed.

Lemma extends_alloc (h h' : heap) (r : ref) :
  extends h h' -> ~ live h r -> extends h (<[r := ∅]> h').
Proof.
  intros Hext Hr r' Hr'. rewrite lookup_insert_ne by (intros ->; contradiction).
  now apply Hext.
Qed.

Lemma extends_setattr (h h' : heap) (r : ref) (name : string) (v : value) :
  extends h h' -> ~ live h r -> extends h (heap_setattr h' r name v).
Proof.
  intros Hext Hr r' Hr'. unfold heap_setattr.
  rewrite lookup_insert_ne by (intros ->; contradiction). now apply Hext.
Qed.

Lemma live_alloc_same (h : heap) (r : ref) : live (<[r := ∅]> h) r.
Proof. unfold live. rewrite lookup_insert_eq. eauto. Qed.

Lemma live_setattr_same (h : heap) (r : ref) (name : string) (v : value) :
  live (heap_setattr h r name v) r.
Proof. unfold live, heap_setattr. rewrite lookup_insert_eq. eauto. Qed.

Lemma live_alloc (h : heap) (r r' : ref) : live h r -> live (<[r' := ∅]> h) r.
Proof.
  intros Hr. destruct (decide (r' = r)) as [->|Hne]; [apply live_alloc_same|].
  unfold live. now rewrite lookup_insert_ne.
Qed.

Lemma def_run (name : string) (body : list value -> kwargs -> M value) (h : heap) :
  def name body h
  = Res (Return (Callable (fresh (dom h)) name body)) (<[fresh (dom h) := ∅]> h) "".
Proof. reflexivity. Qed.

(** Wrapping a function that is live, in a store [h2] that extends [h]
    apart from that function. *)
Lemma wrap_decorated (h h2 : heap) (fn : callable) (level : value) :
  ~ live h (c_ref fn) -> live h2 (c_ref fn) ->
  attr_or h2 (c_ref fn) "log_level" (VInt 0) = level ->
  extends h h2 ->
  exists (w : callable) (h' : heap),
    start_end_log fn h2 = Res (Return w) h' "" /\ decorated h h' fn w level.
Proof.
  intros Hnew Hlive Hlevel Hext.
  exists (Callable (fresh (dom h2)) "inner" (start_end_log_inner fn)),
         (<[fresh (dom h2) := ∅]> h2).
  split; [apply start_end_log_run|]. split_and!.
  - reflexivity.
  - now apply live_alloc.
  - rewrite attr_or_alloc_other; [exact Hlevel|].
    intros Heq. apply (fresh_not_live' h2). now rewrite Heq.
  - intros r Hr. rewrite lookup_insert_ne; [now apply Hext|].
    intros Heq. apply (fresh_not_live' h2). rewrite Heq.
    now apply (extends_live h h2).
Qed.

Lemma list_class_run (L : list value -> kwargs -> M value) (h : heap) :
  exists (fn w : callable) (h' : heap),
    CustomListModelMixin_list L h = Res (Return w) h' ""
    /\ c_name fn = "list" /\ c_call fn = list_body L
    /\ decorated h h' fn w (VInt 2).
Proof.
  set (a := fresh (dom h)).
  set (fn := Callable a "list" (list_body L)).
  set (h2 := heap_setattr (heap_setattr (<[a := ∅]> h) a "log_message" (VStr "LMM"))
                          a "log_level" (VInt 2)).
  destruct (wrap_decorated h h2 fn (VInt 2)) as (w & h' & Hrun & Hdec).
  - apply fresh_not_live'.
  - apply live_setattr_same.
  - apply attr_or_setattr_same.
  - apply extends_setattr; [|apply fresh_not_live'].
    apply extends_setattr; [|apply fresh_not_live'].
    apply extends_alloc; [apply extends_refl | apply fresh_not_live'].
  - exists fn, w, h'. split_and!; [|reflexivity|reflexivity|exact Hdec].
    unfold CustomListModelMixin_list.
    rewrite (bind_return _ _ h _ fn (def_run "list" (list_body L) h)).
    rewrite (bind_return _ _ _ _ fn (message_log_run (VStr "LMM") fn _)).
    rewrite (bind_return _ _ _ _ fn (level_log_run (VInt 2) fn _)).
    exact Hrun.
Qed.

Lemma retrieve_class_run (R : list value -> kwargs -> M value) (h : heap) :
  exists (fn w : callable) (h' : heap),
    CustomRetrieveModelMixin_retrieve R h = Res (Return w) h' ""
    /\ c_name fn = "retrieve" /\ c_call fn = retrieve_body R
    /\ decorated h h' fn w (VInt 2).
Proof.
  set (a := fresh (dom h)).
  set (fn := Callable a "retrieve" (retrieve_body R)).
  set (h2 := heap_setattr (heap_setattr (<[a := ∅]> h) a "log_message" (VStr "LMM"))
                          a "log_level" (VInt 2)).
  destruct (wrap_decorated h h2 fn (VInt 2)) as (w & h' & Hrun & Hdec).
  - apply fresh_not_live'.
  - apply live_setattr_same.
  - apply attr_or_setattr_same.
  - apply extends_setattr; [|apply fresh_not_live'].
    apply extends_setattr; [|apply fresh_not_live'].
    apply extends_alloc; [apply extends_refl | apply fresh_not_live'].
  - exists fn, w, h'. split_and!; [|reflexivity|reflexivity|exact Hdec].
    unfold CustomRetrieveModelMixin_retrieve.
    rewrite (bind_return _ _ h _ fn (def_run "retrieve" (retrieve_body R) h)).
    rewrite (bind_return _ _ _ _ fn (message_log_run (VStr "LMM") fn _)).
    rewrite (bind_return _ _ _ _ fn (level_log_run (VInt 2) fn _)).
    exact Hrun.
Qed.

Lemma get_class_run (wr wl : callable) (h : heap) :
  exists (fn w : callable) (h' : heap),
    CustomGenericAPIView_get wr wl h = Res (Return w) h' ""
    /\ c_name fn = "get" /\ c_call fn = get_body wr wl
    /\ decorated h h' fn w (VInt 1).
Proof.
  set (a := fresh (dom h)).
  set (fn := Callable a "get" (get_body wr wl)).
  set (h2 := heap_setattr (<[a := ∅]> h) a "log_level" (VInt 1)).
  destruct (wrap_decorated h h2 fn (VInt 1)) as (w & h' & Hrun & Hdec).
  - apply fresh_not_live'.
  - apply live_setattr_same.
  - apply attr_or_setattr_same.
  - apply extends_setattr; [|apply fresh_not_live'].
    apply extends_alloc; [apply extends_refl | apply fresh_not_live'].
  - exists fn, w, h'. split_and!; [|reflexivity|reflexivity|exact Hdec].
    unfold CustomGenericAPIView_get.
    rewrite (bind_return _ _ h _ fn (def_run "get" (get_body wr wl) h)).
    rewrite (bind_return _ _ _ _ fn (level_log_run (VInt 1) fn _)).
    exact Hrun.
Qed.

(** A call of a decorated function whose arguments bind, in any store that
    extends the one the decoration left. *)
Lemma decorated_call (h h' h'' : heap) (fn w : callable) (n : Z) (pos : list value)
    (kw : kwargs) (self : value) (args : list value) (kwargs' : kwargs) :
  decorated h h' fn w (VInt n) -> extends h' h'' ->
  bind_params inner_sig pos kw = Return ([self], args, kwargs') ->
  level_fits n ->
  c_call w pos kw h''
  = let r := c_call fn (self :: args) kwargs' h'' in
    Res (r_out r) (r_heap r)
        ((start_line (Str.spaces (2 * Z.to_nat n)) (c_name fn) args kwargs' +:+ nl)
         +:+ r_stdout r
         +:+ match r_out r with
             | Return result =>
                 end_line (Str.spaces (2 * Z.to_nat n)) (c_name fn) result +:+ nl
             | Raise _ => ""
             end).
Proof.
  intros (Hcall & Hlive & Hlevel & _) Hext Hbound Hfits.
  rewrite Hcall, inner_traced. unfold traced.
  rewrite Hbound, (extends_attr_or h' h'') by assumption.
  rewrite Hlevel, indent_of_level by assumption. reflexivity.
Qed.

(** The class statements leave the three closures with their functions and
    levels in one store. *)
Lemma class_run (L R : list value -> kwargs -> M value) (h : heap) :
  exists (fl fr fg : callable) (cls : view_class) (h' : heap),
    CustomGenericAPIView L R h = Res (Return cls) h' ""
    /\ (c_name fl = "list" /\ c_call fl = list_body L)
    /\ (c_name fr = "retrieve" /\ c_call fr = retrieve_body R)
    /\ (c_name fg = "get" /\ c_call fg = get_body (cls_retrieve cls) (cls_list cls))
    /\ (exists h1, decorated h1 h' fl (cls_list cls) (VInt 2))
    /\ (exists h1, decorated h1 h' fr (cls_retrieve cls) (VInt 2))
    /\ (exists h1, decorated h1 h' fg (cls_get cls) (VInt 1)).
Proof.
  destruct (list_class_run L h) as (fl & wl & h1 & Hrun1 & Hn1 & Hc1 & Hd1).
  destruct (retrieve_class_run R h1) as (fr & wr & h2 & Hrun2 & Hn2 & Hc2 & Hd2).
  destruct (get_class_run wr wl h2) as (fg & wg & h3 & Hrun3 & Hn3 & Hc3 & Hd3).
  exists fl, fr, fg, (ViewClass wl wr wg), h3.
  assert (extends h1 h2) as H12 by apply Hd2.
  assert (extends h2 h3) as H23 by apply Hd3.
  split_and!; try assumption.
  - unfold CustomGenericAPIView.
    rewrite (bind_return _ _ h h1 wl Hrun1).
    rewrite (bind_return _ _ h1 h2 wr Hrun2).
    rewrite (bind_return _ _ h2 h3 wg Hrun3). reflexivity.
  - exists h. destruct Hd1 as (Hcall & Hlive & Hlevel & Hext). cbn [cls_list].
    split_and!.
    + exact Hcall.
    + eauto using extends_live.
    + rewrite (extends_attr_or h2 h3), (extends_attr_or h1 h2);
        eauto using extends_live.
    + eauto using extends_trans.
  - exists h1. destruct Hd2 as (Hcall & Hlive & Hlevel & Hext). cbn [cls_retrieve].
    split_and!.
    + exact Hcall.
    + eauto using extends_live.
    + rewrite (extends_attr_or h2 h3); eauto using extends_live.
    + eauto using extends_trans.
  - exists h2. exact Hd3.
Qed.

End ClassFacts.

Module BindFacts.
Import Call CallFacts.

(** With [self] and [request] bound positionally, every keyword other than
    these two goes to [**kwargs]. *)
Lemma bind_keywords_request_bound (sg : signature) (self request : value) (kw : kwargs) :
  sig_varkw sg = true ->
  kw_lookup "self" kw = None -> kw_lookup "request" kw = None ->
  bind_keywords sg kw [("self", Some self); ("request", Some request)]
  = Return ([("self", Some self); ("request", Some request)], kw).
Proof.
  intros Hvarkw. induction kw as [|[k v] kw IH]; [reflexivity|].
  intros Hs Hr. apply kw_lookup_cons_none in Hs as [Hks Hs].
  apply kw_lookup_cons_none in Hr as [Hkr Hr].
  cbn [bind_keywords slot_assign].
  rewrite (String.eqb_sym "self" k), Hks, (String.eqb_sym "request" k), Hkr, Hvarkw.
  now rewrite IH.
Qed.

(** A call [m(self, request, *more, **kw)] of a method declared
    [(self, request, *args, **kwargs)]. *)
Lemma bind_request_star (sg : signature) (self request : value) (args : list value)
    (kw : kwargs) :
  sig_params sg = [("self", None); ("request", None)] ->
  sig_varargs sg = true -> sig_varkw sg = true ->
  kw_lookup "self" kw = None -> kw_lookup "request" kw = None ->
  bind_params sg (self :: request :: args) kw = Return ([self; request], args, kw).
Proof.
  intros Hparams Hvarargs Hvarkw Hs Hr. unfold bind_params.
  rewrite Hparams, Hvarargs. cbn [fill_positional fst snd].
  rewrite bind_keywords_request_bound by assumption. reflexivity.
Qed.

(** A keyword that names no parameter of [get]. *)
Lemma bind_get_unexpected (self request : value) (k : string) (v : value) :
  k <> "self" -> k <> "request" -> k <> "key" ->
  bind_params Views.get_sig [self; request] [(k, v)]
  = Raise (unexpected_keyword Views.get_sig k).
Proof.
  intros Hs Hr Hk. unfold bind_params.
  cbn [Views.get_sig sig_params fill_positional fst snd map bind_keywords slot_assign].
  apply String.eqb_neq in Hs, Hr, Hk.
  rewrite (String.eqb_sym "self" k), Hs, (String.eqb_sym "request" k), Hr,
    (String.eqb_sym "key" k), Hk.
  reflexivity.
Qed.

End BindFacts.

Section Endpoints.
Import Call Logs Views Store Trace StrFacts HeapFacts CallFacts LogFacts StoreFacts.
Import ClassFacts BindFacts UrlFacts.

(** The framework methods behind [super().list] and [super().retrieve]. *)
Variables (L R : list value -> kwargs -> M value).

(** A call of the decorated [get] of the class, in the store the class
    statements left. *)
Lemma class_get_call (h : heap) (self request : value) (kw : kwargs) :
  kw_lookup "self" kw = None ->
  exists (cls : view_class) (h' : heap),
    CustomGenericAPIView L R h = Res (Return cls) h' ""
    /\ (exists (fl : callable) (h1 : heap),
           c_name fl = "list" /\ c_call fl = list_body L
           /\ decorated h1 h' fl (cls_list cls) (VInt 2))
    /\ (exists (fr : callable) (h1 : heap),
           c_name fr = "retrieve" /\ c_call fr = retrieve_body R
           /\ decorated h1 h' fr (cls_retrieve cls) (VInt 2))
    /\ c_call (cls_get cls) [self; request] kw h'
       = let r := get_body (cls_retrieve cls) (cls_list cls) [self; request] kw h' in
         Res (r_out r) (r_heap r)
             ((start_line "  " "get" [request] kw +:+ nl)
              +:+ r_stdout r
              +:+ match r_out r with
                  | Return result => end_line "  " "get" result +:+ nl
                  | Raise _ => ""
                  end).
Proof.
  intros Hkw.
  destruct (class_run L R h)
    as (fl & fr & fg & cls & h' & Hrun & [Hnl Hcl] & [Hnr Hcr] & [Hng Hcg]
        & [hl Hdl] & [hr Hdr] & [hg Hdg]).
  exists cls, h'. split_and!; [exact Hrun | eauto | eauto |].
  rewrite (decorated_call hg h' h' fg (cls_get cls) 1 [self; request] kw self [request] kw
             Hdg (extends_refl h') (bind_inner_positional self [request] kw Hkw)
             (level_fits_small 1 ltac:(lia))).
  now rewrite Hng, Hcg.
Qed.

(** A call of a decorated mixin method with the receiver and the request. *)
Lemma mixin_call (h1 h' : heap) (fn w : callable) (name : string)
    (body super_m : list value -> kwargs -> M value) (sg : signature)
    (self request : value) :
  decorated h1 h' fn w (VInt 2) -> c_name fn = name -> c_call fn = body ->
  (forall (pos : list value) (kw : kwargs) (h : heap),
      body pos kw h
      = (lift (bind_params sg pos kw)
           ≫= (fun '(params, args, kwargs') =>
                  super_m (param 0 params :: param 1 params :: args) kwargs')) h) ->
  bind_params sg [self; request] [] = Return ([self; request], [], []) ->
  c_call w [self; request] [] h'
  = let r := super_m [self; request] [] h' in
    Res (r_out r) (r_heap r)
        ((start_line "    " name [request] [] +:+ nl)
         +:+ r_stdout r
         +:+ match r_out r with
             | Return result => end_line "    " name result +:+ nl
             | Raise _ => ""
             end).
Proof.
  intros Hdec Hname Hcall Hbody Hbound.
  rewrite (decorated_call h1 h' h' fn w 2 [self; request] [] self [request] []
             Hdec (extends_refl h') eq_refl (level_fits_small 2 ltac:(lia))).
  rewrite Hname, Hcall, Hbody, Hbound, bind_lift_return. reflexivity.
Qed.

(** X11: called with the view and the request and no key, the decorated
    [get] of the class ends the way the framework's [list] ends, called with
    the view and the request and leaving the store it leaves; the call
    writes the start line of [get] (two spaces), the start line of [list]
    (four spaces), what the framework wrote and, when it returned, the end
    line of [list] and then the end line of [get].  When the framework
    raises, neither end line is written. *)
Theorem get_call_lists (h : heap) (self request : value) :
  (cls ← CustomGenericAPIView L R; c_call (cls_get cls) [self; request] []) h
  = let r := L [self; request] [] (r_heap (CustomGenericAPIView L R h)) in
    Res (r_out r) (r_heap r)
        ((start_line "  " "get" [request] [] +:+ nl)
         +:+ ((start_line "    " "list" [request] [] +:+ nl)
              +:+ r_stdout r
              +:+ match r_out r with
                  | Return result => end_line "    " "list" result +:+ nl
                  | Raise _ => ""
                  end)
         +:+ match r_out r with
             | Return result => end_line "  " "get" result +:+ nl
             | Raise _ => ""
             end).
Proof.
  destruct (class_get_call h self request [] eq_refl)
    as (cls & h' & Hrun & (fl & hl & Hnl & Hcl & Hdl) & _ & Hget).
  rewrite (bind_return _ _ h h' cls Hrun), Hrun. cbn [r_heap].
  rewrite Hget.
  destruct (get_dispatch (cls_retrieve cls) (cls_list cls) self request h')
    as (_ & -> & _).
  rewrite (mixin_call hl h' fl (cls_list cls) "list" (list_body L) L list_sig self request
             Hdl Hnl Hcl (fun _ _ _ => eq_refl) eq_refl).
  cbn zeta. destruct (L [self; request] [] h') as [[result|e] h'' out]; reflexivity.
Qed.

(** X12: called with the view, the request and an integer key [z] other
    than zero, the decorated [get] of the class ends the way the framework's
    [retrieve] ends, called with the view and the request only; the start
    line of [get] shows the key, and the lines of [retrieve] (four spaces)
    are nested in those of [get] (two spaces). *)
Theorem get_call_retrieves (h : heap) (self request : value) (z : Z) :
  z <> 0%Z ->
  (cls ← CustomGenericAPIView L R;
   c_call (cls_get cls) [self; request] [("key", VInt z)]) h
  = let r := R [self; request] [] (r_heap (CustomGenericAPIView L R h)) in
    Res (r_out r) (r_heap r)
        ((start_line "  " "get" [request] [("key", VInt z)] +:+ nl)
         +:+ ((start_line "    " "retrieve" [request] [] +:+ nl)
              +:+ r_stdout r
              +:+ match r_out r with
                  | Return result => end_line "    " "retrieve" result +:+ nl
                  | Raise _ => ""
                  end)
         +:+ match r_out r with
             | Return result => end_line "  " "get" result +:+ nl
             | Raise _ => ""
             end).
Proof.
  intros Hz.
  destruct (class_get_call h self request [("key", VInt z)] eq_refl)
    as (cls & h' & Hrun & _ & (fr & hr & Hnr & Hcr & Hdr) & Hget).
  rewrite (bind_return _ _ h h' cls Hrun), Hrun. cbn [r_heap].
  rewrite Hget.
  destruct (get_dispatch (cls_retrieve cls) (cls_list cls) self request h')
    as (Hkey & _ & _).
  rewrite Hkey by assumption.
  rewrite (mixin_call hr h' fr (cls_retrieve cls) "retrieve" (retrieve_body R) R
             retrieve_sig self request Hdr Hnr Hcr (fun _ _ _ => eq_refl) eq_refl).
  cbn zeta. destruct (R [self; request] [] h') as [[result|e] h'' out]; reflexivity.
Qed.

(** X13: called with a keyword argument that [get] does not declare, the
    decorated [get] writes its start line and then raises the [TypeError] of
    the call; it writes no end line, runs neither [list] nor [retrieve], and
    leaves the store as it was. *)
Theorem get_unexpected_keyword (h : heap) (self request : value) (k : string)
    (v : value) :
  k <> "self" -> k <> "request" -> k <> "key" ->
  (cls ← CustomGenericAPIView L R; c_call (cls_get cls) [self; request] [(k, v)]) h
  = Res (Raise (unexpected_keyword get_sig k)) (r_heap (CustomGenericAPIView L R h))
        (start_line "  " "get" [request] [(k, v)] +:+ nl).
Proof.
  intros Hs Hr Hk.
  assert (kw_lookup "self" [(k, v)] = None) as Hkw.
  { cbn [kw_lookup]. apply String.eqb_neq in Hs. now rewrite Hs. }
  destruct (class_get_call h self request [(k, v)] Hkw)
    as (cls & h' & Hrun & _ & _ & Hget).
  rewrite (bind_return _ _ h h' cls Hrun), Hrun. cbn [r_heap].
  rewrite Hget. unfold get_body.
  rewrite (bind_get_unexpected self request k v Hs Hr Hk).
  cbn. now rewrite app_nil_r.
Qed.

End Endpoints.

Section Handler2.
Import Call Logs Views StrFacts LogFacts.

(** X14: [get] uses its key only as a truth value: two keys that are both
    true, or both false, give the same run, whatever they are; the key is not
    passed on to [retrieve] or [list]. *)
Theorem get_key_truth_only (self_retrieve self_list : callable) (self request : value)
    (key1 key2 : value) (h : heap) :
  py_truthy key1 = py_truthy key2 ->
  get_body self_retrieve self_list [self; request] [("key", key1)] h
  = get_body self_retrieve self_list [self; request] [("key", key2)] h.
Proof.
  intros Htruth. unfold get_body.
  assert (forall key : value,
             bind_params get_sig [self; request] [("key", key)]
             = Return ([self; request; key], [], [])) as Hkey by reflexivity.
  rewrite !Hkey, !bind_lift_return. cbn [param nth]. now rewrite Htruth.
Qed.

End Handler2.

Module HookFacts.
Import Call Logs Views Hooks Store Trace StrFacts HeapFacts CallFacts LogFacts StoreFacts.
Import ClassFacts.

Lemma decorate_run (m : method) (super_m : list value -> kwargs -> M value) (h : heap) :
  exists (fn w : callable) (h' : heap),
    decorate m super_m h = Res (Return w) h' ""
    /\ c_name fn = m_name m /\ c_call fn = super_call m super_m
    /\ decorated h h' fn w (VInt (default 0%Z (m_level m))).
Proof.
  set (a := fresh (dom h)).
  set (fn := Callable a (m_name m) (super_call m super_m)).
  destruct (m_level m) as [n|] eqn:Hlevel.
  - set (h2 := heap_setattr (<[a := ∅]> h) a "log_level" (VInt n)).
    destruct (wrap_decorated h h2 fn (VInt n)) as (w & h' & Hrun & Hdec).
    + apply fresh_not_live'.
    + apply live_setattr_same.
    + apply attr_or_setattr_same.
    + apply extends_setattr; [|apply fresh_not_live'].
      apply extends_alloc; [apply extends_refl | apply fresh_not_live'].
    + exists fn, w, h'. split_and!; [|reflexivity|reflexivity|exact Hdec].
      unfold decorate. rewrite Hlevel.
      rewrite (bind_return _ _ h _ fn (def_run _ _ h)).
      rewrite (bind_return _ _ _ _ fn (level_log_run (VInt n) fn _)).
      exact Hrun.
  - set (h2 := <[a := ∅]> h).
    destruct (wrap_decorated h h2 fn (VInt 0)) as (w & h' & Hrun & Hdec).
    + apply fresh_not_live'.
    + apply live_alloc_same.
    + apply attr_or_alloc_same.
    + apply extends_alloc; [apply extends_refl | apply fresh_not_live'].
    + exists fn, w, h'. split_and!; [|reflexivity|reflexivity|exact Hdec].
      unfold decorate. rewrite Hlevel.
      rewrite (bind_return _ _ h _ fn (def_run _ _ h)).
      rewrite (bind_return _ _ h2 h2 fn) by reflexivity.
      exact Hrun.
Qed.

Lemma indent_of_spaces (m : method) :
  Str.spaces (2 * Z.to_nat (default 0%Z (m_level m))) = indent_of m.
Proof. unfold indent_of. f_equal. lia. Qed.

(** With [self] bound and [request] not, keywords other than these two go
    to [**kwargs]. *)
Lemma bind_keywords_request_missing (sg : signature) (self : value) (kw : kwargs) :
  sig_varkw sg = true ->
  kw_lookup "self" kw = None -> kw_lookup "request" kw = None ->
  bind_keywords sg kw [("self", Some self); ("request", None)]
  = Return ([("self", Some self); ("request", None)], kw).
Proof.
  intros Hvarkw. induction kw as [|[k v] kw IH]; [reflexivity|].
  intros Hs Hr. apply kw_lookup_cons_none in Hs as [Hks Hs].
  apply kw_lookup_cons_none in Hr as [Hkr Hr].
  cbn [bind_keywords slot_assign].
  rewrite (String.eqb_sym "self" k), Hks, (String.eqb_sym "request" k), Hkr, Hvarkw.
  now rewrite IH.
Qed.

End HookFacts.

Section Mixins.
Import Call Logs Views Hooks Store Trace StrFacts HeapFacts CallFacts LogFacts StoreFacts.
Import ClassFacts BindFacts HookFacts.

Variables (L R : list value -> kwargs -> M value).

(** X15: the decorated [list] and [retrieve] of the mixins pass the
    receiver, the request and every further positional and keyword argument
    on to the framework method, end the way it ends and leave the store it
    leaves; their lines are indented by four spaces and show the arguments
    without the receiver.  The message [LMM] attached to both is not in the
    trace. *)
Theorem mixins_delegate (h : heap) (self request : value) (args : list value)
    (kw : kwargs) :
  kw_lookup "self" kw = None -> kw_lookup "request" kw = None ->
  (w ← CustomListModelMixin_list L; c_call w (self :: request :: args) kw) h
  = (let r := L (self :: request :: args) kw (r_heap (CustomListModelMixin_list L h)) in
     Res (r_out r) (r_heap r)
         ((start_line "    " "list" (request :: args) kw +:+ nl)
          +:+ r_stdout r
          +:+ match r_out r with
              | Return result => end_line "    " "list" result +:+ nl
              | Raise _ => ""
              end))
  /\ (w ← CustomRetrieveModelMixin_retrieve R; c_call w (self :: request :: args) kw) h
     = (let r := R (self :: request :: args) kw
                   (r_heap (CustomRetrieveModelMixin_retrieve R h)) in
        Res (r_out r) (r_heap r)
            ((start_line "    " "retrieve" (request :: args) kw +:+ nl)
             +:+ r_stdout r
             +:+ match r_out r with
                 | Return result => end_line "    " "retrieve" result +:+ nl
                 | Raise _ => ""
                 end)).
Proof.
  intros Hs Hr. split.
  - destruct (list_class_run L h) as (fn & w & h' & Hrun & Hname & Hcall & Hdec).
    rewrite (bind_return _ _ h h' w Hrun), Hrun. cbn [r_heap].
    rewrite (decorated_call h h' h' fn w 2 (self :: request :: args) kw self
               (request :: args) kw Hdec (extends_refl h')
               (bind_inner_positional self (request :: args) kw Hs)
               (level_fits_small 2 ltac:(lia))).
    rewrite Hname, Hcall. unfold list_body.
    rewrite (bind_request_star list_sig self request args kw) by (reflexivity || assumption).
    rewrite bind_lift_return. reflexivity.
  - destruct (retrieve_class_run R h) as (fn & w & h' & Hrun & Hname & Hcall & Hdec).
    rewrite (bind_return _ _ h h' w Hrun), Hrun. cbn [r_heap].
    rewrite (decorated_call h h' h' fn w 2 (self :: request :: args) kw self
               (request :: args) kw Hdec (extends_refl h')
               (bind_inner_positional self (request :: args) kw Hs)
               (level_fits_small 2 ltac:(lia))).
    rewrite Hname, Hcall. unfold retrieve_body.
    rewrite (bind_request_star retrieve_sig self request args kw)
      by (reflexivity || assumption).
    rewrite bind_lift_return. reflexivity.
Qed.

(** X16: called with the receiver and no request, the decorated [list]
    writes its start line and then raises the [TypeError] for the missing
    argument; the framework's [list] does not run and no end line is
    written. *)
Theorem list_without_request (h : heap) (self : value) (kw : kwargs) :
  kw_lookup "self" kw = None -> kw_lookup "request" kw = None ->
  (w ← CustomListModelMixin_list L; c_call w [self] kw) h
  = Res (Raise (missing_positional list_sig ["request"]))
        (r_heap (CustomListModelMixin_list L h))
        (start_line "    " "list" [] kw +:+ nl).
Proof.
  intros Hs Hr.
  destruct (list_class_run L h) as (fn & w & h' & Hrun & Hname & Hcall & Hdec).
  rewrite (bind_return _ _ h h' w Hrun), Hrun. cbn [r_heap].
  rewrite (decorated_call h h' h' fn w 2 [self] kw self [] kw Hdec (extends_refl h')
             (bind_inner_positional self [] kw Hs) (level_fits_small 2 ltac:(lia))).
  rewrite Hname, Hcall. unfold list_body.
  assert (bind_params list_sig [self] kw = Raise (missing_positional list_sig ["request"]))
    as ->.
  { unfold bind_params. cbn [list_sig sig_params fill_positional fst snd map].
    rewrite bind_keywords_request_missing by (reflexivity || assumption). reflexivity. }
  cbn. now rewrite app_nil_r.
Qed.

End Mixins.

Section OtherMethods.
Import Call Logs Views Hooks Store Trace StrFacts HeapFacts CallFacts LogFacts StoreFacts.
Import ClassFacts BindFacts HookFacts.

Variables (m : method) (super_m : list value -> kwargs -> M value).

(** X17: every overriding method built the way the class builds them ends
    the way the framework method ends and leaves the store it leaves: the
    framework method is called with the bound parameters followed by [*args]
    and with [**kwargs], and the method adds nothing but its start line and,
    when the framework method returned, its end line, both indented by twice
    its level (no indentation without [level_log]).  The level has to be one
    whose indentation is built ([level_fits]), as the levels 1, 2 and 3 of
    the class are. *)
Theorem decorate_transparent (h : heap) (pos : list value) (kw : kwargs) (self : value)
    (args : list value) (kwargs' : kwargs) (params extra : list value)
    (kwargs'' : kwargs) :
  level_fits (default 0%Z (m_level m)) ->
  bind_params inner_sig pos kw = Return ([self], args, kwargs') ->
  bind_params (m_sig m) (self :: args) kwargs' = Return (params, extra, kwargs'') ->
  (w ← decorate m super_m; c_call w pos kw) h
  = let r := super_m (params ++ extra) kwargs'' (r_heap (decorate m super_m h)) in
    Res (r_out r) (r_heap r)
        ((start_line (indent_of m) (m_name m) args kwargs' +:+ nl)
         +:+ r_stdout r
         +:+ match r_out r with
             | Return result => end_line (indent_of m) (m_name m) result +:+ nl
             | Raise _ => ""
             end).
Proof.
  intros Hfits Hinner Hbound.
  destruct (decorate_run m super_m h) as (fn & w & h' & Hrun & Hname & Hcall & Hdec).
  rewrite (bind_return _ _ h h' w Hrun), Hrun. cbn [r_heap].
  rewrite (decorated_call h h' h' fn w _ pos kw self args kwargs' Hdec (extends_refl h')
             Hinner Hfits).
  rewrite Hname, Hcall, indent_of_spaces. unfold super_call.
  rewrite Hbound, bind_lift_return. reflexivity.
Qed.

(** X18: when the arguments do not fit the parameters of the method, the
    start line is written all the same, then the [TypeError] of the call is
    raised: the framework method does not run, no end line is written and the
    store is left as it was. *)
Theorem decorate_argument_error (h : heap) (pos : list value) (kw : kwargs)
    (self : value) (args : list value) (kwargs' : kwargs) (e : exn) :
  level_fits (default 0%Z (m_level m)) ->
  bind_params inner_sig pos kw = Return ([self], args, kwargs') ->
  bind_params (m_sig m) (self :: args) kwargs' = Raise e ->
  (w ← decorate m super_m; c_call w pos kw) h
  = Res (Raise e) (r_heap (decorate m super_m h))
        (start_line (indent_of m) (m_name m) args kwargs' +:+ nl).
Proof.
  intros Hfits Hinner Hbound.
  destruct (decorate_run m super_m h) as (fn & w & h' & Hrun & Hname & Hcall & Hdec).
  rewrite (bind_return _ _ h h' w Hrun), Hrun. cbn [r_heap].
  rewrite (decorated_call h h' h' fn w _ pos kw self args kwargs' Hdec (extends_refl h')
             Hinner Hfits).
  rewrite Hname, Hcall, indent_of_spaces. unfold super_call.
  rewrite Hbound. cbn. now rewrite app_nil_r.
Qed.

(** X19: for a method declared [(self, request, *args, **kwargs)], as
    [dispatch], [initialize_request] and [initial] are, a call with a
    receiver, a request and any further arguments reaches the framework
    method with exactly these positional and keyword arguments. *)
Theorem decorate_request_star (h : heap) (self request : value) (args : list value)
    (kw : kwargs) :
  level_fits (default 0%Z (m_level m)) ->
  m_sig m = sig_request_star (m_name m) ->
  kw_lookup "self" kw = None -> kw_lookup "request" kw = None ->
  (w ← decorate m super_m; c_call w (self :: request :: args) kw) h
  = let r := super_m (self :: request :: args) kw (r_heap (decorate m super_m h)) in
    Res (r_out r) (r_heap r)
        ((start_line (indent_of m) (m_name m) (request :: args) kw +:+ nl)
         +:+ r_stdout r
         +:+ match r_out r with
             | Return result => end_line (indent_of m) (m_name m) result +:+ nl
             | Raise _ => ""
             end).
Proof.
  intros Hfits Hsig Hs Hr.
  apply (decorate_transparent h (self :: request :: args) kw self (request :: args) kw
           [self; request] args kw).
  - exact Hfits.
  - now apply bind_inner_positional.
  - rewrite Hsig. now apply bind_request_star.
Qed.

End OtherMethods.

Section UrlConf.
Import Call Logs Views Hooks Store Trace StrFacts HeapFacts CallFacts LogFacts StoreFacts.
Import ClassFacts BindFacts HookFacts.

(** The framework's [as_view]. *)
Variable A : list value -> kwargs -> M value.

(** X20: evaluating [urlpatterns] calls the decorated [as_view] twice,
    with the class and nothing else; when the framework's [as_view] returns
    both times and keeps the existing objects as they are, two traces are
    written one after the other, not indented and with empty arguments, and
    the two views are the result. *)
Theorem load_urlpatterns_traces (h : heap) (cls v1 v2 : value) :
  r_out (A [cls] [] (r_heap (decorate as_view A h))) = Return v1 ->
  extends (r_heap (decorate as_view A h))
          (r_heap (A [cls] [] (r_heap (decorate as_view A h)))) ->
  r_out (A [cls] [] (r_heap (A [cls] [] (r_heap (decorate as_view A h))))) = Return v2 ->
  (w ← decorate as_view A; load_urlpatterns w cls) h
  = let r1 := A [cls] [] (r_heap (decorate as_view A h)) in
    let r2 := A [cls] [] (r_heap r1) in
    Res (Return [v1; v2]) (r_heap r2)
        (((start_line "" "as_view" [] [] +:+ nl)
          +:+ r_stdout r1 +:+ (end_line "" "as_view" v1 +:+ nl))
         +:+ ((start_line "" "as_view" [] [] +:+ nl)
              +:+ r_stdout r2 +:+ (end_line "" "as_view" v2 +:+ nl))).
Proof.
  intros Hv1 Hext Hv2.
  destruct (decorate_run as_view A h) as (fn & w & h' & Hrun & Hname & Hcall & Hdec).
  rewrite Hrun in Hv1, Hext, Hv2 |- *. cbn [r_heap] in Hv1, Hext, Hv2 |- *.
  rewrite (bind_return _ _ h h' w Hrun).
  assert (forall h'' : heap,
             extends h' h'' ->
             c_call w [cls] [] h''
             = let r := A [cls] [] h'' in
               Res (r_out r) (r_heap r)
                   ((start_line "" "as_view" [] [] +:+ nl)
                    +:+ r_stdout r
                    +:+ match r_out r with
                        | Return result => end_line "" "as_view" result +:+ nl
                        | Raise _ => ""
                        end)) as Hcallw.
  { intros h'' Hext''.
    rewrite (decorated_call h h' h'' fn w _ [cls] [] cls [] [] Hdec Hext'' eq_refl
               (level_fits_small 0 ltac:(lia))).
    rewrite Hname, Hcall. unfold super_call.
    assert (bind_params (m_sig as_view) [cls] [] = Return ([cls], [], [])) as ->
      by reflexivity.
    rewrite bind_lift_return. reflexivity. }
  unfold load_urlpatterns. rewrite bind_run, (Hcallw h' (extends_refl h')).
  cbn zeta. cbn [r_out r_heap r_stdout]. rewrite Hv1.
  rewrite bind_run, (Hcallw _ Hext). cbn zeta. cbn [r_out r_heap r_stdout].
  rewrite Hv2. cbn [mret M_ret ret r_out r_heap r_stdout].
  now rewrite !app_nil_r.
Qed.

End UrlConf.


(** * More concrete runs *)

Section Runs2.
Import Call Logs Views Hooks Store Sample Sample2.

Lemma start_end_log_twice_witness :
  heap0 !! c_ref f_echo = Some ∅
  /\ r_out ((w1 ← start_end_log f_echo; w2 ← start_end_log w1;
             c_call w2 [view; VInt 7] []) heap0)
     = Return (VTuple [view; VInt 7]).
Proof.
  assert (heap0 !! c_ref f_echo = Some ∅) as Hd by reflexivity.
  split; [exact Hd|].
  destruct (start_end_log_twice f_echo heap0 ∅ view [VInt 7] [] "" Hd eq_refl eq_refl)
    as (h2 & _ & Hrun).
  rewrite Hrun. reflexivity.
Defined.

Lemma start_end_log_bad_level_witness :
  exists msg : string,
    (f1 ← level_log (VStr "2") f_echo; w ← start_end_log f1; c_call w [view] []) heap0
    = Res (Raise (TypeError msg))
          (r_heap ((f1 ← level_log (VStr "2") f_echo; start_end_log f1) heap0)) "".
Proof.
  exact (start_end_log_bad_level f_echo (VStr "2") heap0 [view] [] view [] [] I eq_refl).
Defined.

Lemma level_log_after_wrapping_witness :
  bind_params inner_sig [view] [] = Return ([view], [], [])
  /\ trace_indent
       (r_stdout ((w ← start_end_log f_echo; _ ← level_log (VInt 3) f_echo;
                   c_call w [view] []) heap0)) = 6%nat.
Proof.
  split; [reflexivity|].
  rewrite (level_log_after_wrapping f_echo 3 heap0 [view] [] view [] []
             (LogFacts.level_fits_small 3 ltac:(lia)) eq_refl).
  cbn [r_stdout]. exact (LogFacts.trace_indent_start 6 _ _ _ _).
Defined.

Lemma start_end_log_huge_level_witness :
  exists msg : string,
    (f1 ← level_log (VInt 4611686018427387904) f_echo; w ← start_end_log f1;
     c_call w [view] []) heap0
    = Res (Raise (OverflowError msg))
          (r_heap ((f1 ← level_log (VInt 4611686018427387904) f_echo;
                    start_end_log f1) heap0)) "".
Proof.
  exact (start_end_log_huge_level f_echo 4611686018427387904 heap0 [view] [] view [] []
           ltac:(lia) eq_refl).
Defined.

Lemma start_end_log_self_twice_witness :
  is_Some (kw_lookup "self" [("self", VNone)])
  /\ c_call w_echo [view] [("self", VNone)] heap0
     = Res (Raise (multiple_values inner_sig "self")) heap0 "".
Proof.
  assert (is_Some (kw_lookup "self" [("self", VNone)])) as Hkw
    by (exists VNone; reflexivity).
  split; [exact Hkw|].
  exact (start_end_log_self_twice f_echo w_echo heap0 eq_refl heap0 view []
           [("self", VNone)] Hkw).
Defined.

Lemma start_end_log_store_frame_witness :
  (forall (a : list value) (k : kwargs), r_heap (c_call f_echo a k heap0) = heap0)
  /\ r_heap (c_call w_echo [view] [] heap0) = heap0.
Proof.
  assert (forall (a : list value) (k : kwargs), r_heap (c_call f_echo a k heap0) = heap0)
    as Hframe by (intros a k; reflexivity).
  split; [exact Hframe|].
  exact (start_end_log_store_frame f_echo w_echo heap0 eq_refl heap0 [view] [] Hframe).
Defined.

Lemma get_call_retrieves_witness :
  5%Z <> 0%Z
  /\ r_out ((cls ← CustomGenericAPIView list_stub retrieve_stub;
             c_call (cls_get cls) [view; request] [("key", VInt 5)]) empty_heap)
     = Return (VStr "user").
Proof.
  split; [discriminate|].
  rewrite (get_call_retrieves list_stub retrieve_stub empty_heap view request 5
             ltac:(discriminate)).
  reflexivity.
Defined.

Lemma get_unexpected_keyword_witness :
  r_out ((cls ← CustomGenericAPIView list_stub retrieve_stub;
          c_call (cls_get cls) [view; request] [("pk", VInt 5)]) empty_heap)
  = Raise (unexpected_keyword get_sig "pk").
Proof.
  rewrite (get_unexpected_keyword list_stub retrieve_stub empty_heap view request "pk"
             (VInt 5) ltac:(discriminate) ltac:(discriminate) ltac:(discriminate)).
  reflexivity.
Defined.

Lemma get_key_truth_only_witness :
  py_truthy (VInt 5) = py_truthy (VStr "x")
  /\ get_body w_echo w_fail [view; request] [("key", VInt 5)] heap0
     = get_body w_echo w_fail [view; request] [("key", VStr "x")] heap0.
Proof.
  split; [reflexivity|].
  exact (get_key_truth_only w_echo w_fail view request (VInt 5) (VStr "x") heap0 eq_refl).
Defined.

Lemma mixins_delegate_witness :
  r_out ((w ← CustomListModelMixin_list list_stub;
          c_call w [view; request; VInt 1] [("page", VInt 2)]) empty_heap)
  = Return (VStr "users").
Proof.
  rewrite (proj1 (mixins_delegate list_stub retrieve_stub empty_heap view request
                    [VInt 1] [("page", VInt 2)] eq_refl eq_refl)).
  reflexivity.
Defined.

Lemma list_without_request_witness :
  r_out ((w ← CustomListModelMixin_list list_stub; c_call w [view] []) empty_heap)
  = Raise (missing_positional list_sig ["request"]).
Proof.
  rewrite (list_without_request list_stub empty_heap view [] eq_refl eq_refl).
  reflexivity.
Defined.

Lemma decorate_transparent_witness :
  bind_params (m_sig get_permissions) [view] [] = Return ([view], [], [])
  /\ r_out ((w ← decorate get_permissions super_stub; c_call w [view] []) empty_heap)
     = Return (VTuple [view])
  /\ trace_indent
       (r_stdout ((w ← decorate get_permissions super_stub; c_call w [view] [])
                    empty_heap)) = 6%nat.
Proof.
  split; [reflexivity|].
  rewrite (decorate_transparent get_permissions super_stub empty_heap [view] [] view
             [] [] [view] [] [] (LogFacts.level_fits_small 3 ltac:(lia)) eq_refl eq_refl).
  split; [reflexivity|].
  cbn [r_stdout]. exact (LogFacts.trace_indent_start 6 _ _ _ _).
Defined.

Lemma decorate_argument_error_witness :
  bind_params (m_sig get_permissions) [view; VInt 1] []
  = Raise (too_many_positional (m_sig get_permissions) 2)
  /\ (w ← decorate get_permissions super_stub; c_call w [view; VInt 1] []) empty_heap
     = Res (Raise (too_many_positional (m_sig get_permissions) 2))
           (r_heap (decorate get_permissions super_stub empty_heap))
           (start_line (indent_of get_permissions) "get_permissions" [VInt 1] [] +:+ nl).
Proof.
  split; [reflexivity|].
  exact (decorate_argument_error get_permissions super_stub empty_heap [view; VInt 1] []
           view [VInt 1] [] _ (LogFacts.level_fits_small 3 ltac:(lia)) eq_refl eq_refl).
Defined.

Lemma decorate_request_star_witness :
  m_sig dispatch = sig_request_star (m_name dispatch)
  /\ r_out ((w ← decorate dispatch super_stub;
             c_call w [view; request; VInt 1] [("key", VInt 5)]) empty_heap)
     = Return (VTuple [view; request; VInt 1]).
Proof.
  split; [reflexivity|].
  rewrite (decorate_request_star dispatch super_stub empty_heap view request [VInt 1]
             [("key", VInt 5)] (LogFacts.level_fits_small 0 ltac:(lia)) eq_refl eq_refl
             eq_refl).
  reflexivity.
Defined.

Lemma load_urlpatterns_traces_witness :
  r_out ((w ← decorate as_view as_view_stub; load_urlpatterns w view_class_object)
           empty_heap)
  = Return [view_function; view_function]
  /\ r_stdout ((w ← decorate as_view as_view_stub; load_urlpatterns w view_class_object)
                 empty_heap)
     = ((start_line "" "as_view" [] [] +:+ nl)
        +:+ "" +:+ (end_line "" "as_view" view_function +:+ nl))
       +:+ ((start_line "" "as_view" [] [] +:+ nl)
            +:+ "" +:+ (end_line "" "as_view" view_function +:+ nl)).
Proof.
  rewrite (load_urlpatterns_traces as_view_stub empty_heap view_class_object
             view_function view_function eq_refl (ClassFacts.extends_refl _) eq_refl).
  split; reflexivity.
Defined.

End Runs2.
